
(** * Verification of the image-filter pipeline of [app.js]

    The development embeds the filtering engine of [app.js]: [buildKernel],
    [clamp], [gaussianBlur], [sharpenImage], [formatKernel] and [runFilter]
    with its animation-frame callback, and proves the properties of its
    specification.

    JavaScript Numbers are kept behind an interface, [JSNumber], so that the
    code is written once and read under two semantics of Numbers:
    - [Float64]: IEEE-754 binary64 numbers, with the conversions of the
      stores into [Float32Array] and [Uint8ClampedArray]; it is executable,
      for any implementation of the part of [Math.exp] that the language
      leaves open;
    - [ExactNumber]: real numbers without rounding, extended with a NaN.

    The theorems on the structure of the code (loops, indices, clamping,
    objects, failures) hold for every semantics of Numbers. The theorems on
    sums of weights are stated over [ExactNumber]: they say nothing of the
    rounding errors of the program.

    Loop counters, sizes and array indices hold integers in the program and
    are integers ([Z]) here. The page is its variables, its output canvas,
    its status line and the queue of animation-frame callbacks; the labels
    of the sliders and the console are left out. *)

From Stdlib Require Import ZArith QArith Qabs Reals Lra Lia Floats.
From stdpp Require Import base option list gmap strings.

Open Scope Z_scope.

(** ** Numbers *)

(** The operations on Numbers that [app.js] uses. *)
Class JSNumber := {
  number : Type;
  (** an integer-valued Number *)
  of_Z : Z → number;
  (** what an [undefined] operand becomes in arithmetic *)
  NaN : number;
  (** the literal [0.15] *)
  lit_0_15 : number;
  num_add : number → number → number;
  num_sub : number → number → number;
  num_mul : number → number → number;
  num_div : number → number → number;
  num_neg : number → number;
  (** [a <= b] and [a > b] *)
  num_le : number → number → bool;
  num_gt : number → number → bool;
  Math_exp : number → number;
  Math_round : number → number;
  Math_max : number → number → number;
  Math_min : number → number → number;
  (** conversion on a store into a [Float32Array] *)
  Math_fround : number → number;
  (** conversion on a store into a [Uint8ClampedArray] *)
  ToUint8Clamp : number → Z;
}.

(** ** Abrupt completions *)

Inductive exn :=
  | RangeError
  | TypeError
  | InvalidStateError
  | IndexSizeError.

Inductive completion (A : Type) :=
  | Normal (a : A)
  | Throw (e : exn).
Arguments Normal {A} a.
Arguments Throw {A} e.

#[global] Instance completion_bind : MBind completion :=
  λ A B f m, match m with Normal a => f a | Throw e => Throw e end.
#[global] Instance completion_ret : MRet completion := λ A a, Normal a.

(** ** Loops *)

(** [for (let i = lo; i < hi; i += 1) body], on the variables [s] that the
    body updates. *)
Definition for_loop {St : Type} (lo hi : Z) (body : Z → St → St) (s : St) : St :=
  foldl (λ s i, body i s) s (seqZ lo (hi - lo)).

(** ** Typed arrays *)

(** An element read, [a[i]]: [None] stands for [undefined], the value of a
    read outside the array. *)
Definition array_get {A : Type} (a : list A) (i : Z) : option A :=
  if i <? 0 then None else a !! Z.to_nat i.

(** An element store, [a[i] = v]: outside the array nothing is written. *)
Definition array_set {A : Type} (a : list A) (i : Z) (v : A) : list A :=
  if i <? 0 then a else <[Z.to_nat i := v]> a.

Section Filter.
Context `{N : JSNumber}.

Definition Float32Array := list number.
Definition Uint8ClampedArray := list Z.

(** [new Float32Array(n)] and [new Uint8ClampedArray(n)]: zero filled, a
    negative length is a RangeError. *)
Definition Float32Array_new (n : Z) : completion Float32Array :=
  if n <? 0 then Throw RangeError else Normal (replicate (Z.to_nat n) (of_Z 0)).
Definition Uint8ClampedArray_new (n : Z) : completion Uint8ClampedArray :=
  if n <? 0 then Throw RangeError else Normal (replicate (Z.to_nat n) 0).

(** A read used as an operand of arithmetic. *)
Definition f32_read (a : Float32Array) (i : Z) : number :=
  default NaN (array_get a i).
Definition u8_read (a : Uint8ClampedArray) (i : Z) : number :=
  default NaN (of_Z <$> array_get a i).

Definition f32_set (a : Float32Array) (i : Z) (v : number) : Float32Array :=
  array_set a i (Math_fround v).
Definition u8_set (a : Uint8ClampedArray) (i : Z) (v : number) : Uint8ClampedArray :=
  array_set a i (ToUint8Clamp v).

(** ** [buildKernel] *)

Record Kernel := { kernel : Float32Array; radius : Z }.

Definition gaussian (sigma2 : number) (i : Z) : number :=
  Math_exp (num_div (num_neg (of_Z (i * i))) (num_mul (of_Z 2) sigma2)).

Definition buildKernel (size : Z) (sigma : number) : completion Kernel :=
  let radius := size / 2 in
  kernel ← Float32Array_new size;
  let sigma2 := num_mul sigma sigma in
  let '(kernel, sum) :=
    for_loop (- radius) (radius + 1) (λ i '(kernel, sum),
      let value := gaussian sigma2 i in
      (f32_set kernel (i + radius) value, num_add sum value))
      (kernel, of_Z 0) in
  let kernel :=
    for_loop 0 size (λ i kernel,
      f32_set kernel i (num_div (f32_read kernel i) sum)) kernel in
  Normal {| kernel := kernel; radius := radius |}.

(** ** [clamp] *)

(** [clamp] on the integers of an index computation, and on Numbers. *)
Definition clamp (value min max : Z) : Z := Z.max min (Z.min max value).
Definition clamp_num (value min max : number) : number :=
  Math_max min (Math_min max value).

(** ** Images *)

Record ImageData := { width : Z; height : Z; data : Uint8ClampedArray }.

(** [new ImageData(data, sw, sh)]: the length of [data] is a nonzero
    multiple of 4, the number of pixels a multiple of [sw], and [sh] the
    number of rows. *)
Definition ImageData_new (data : Uint8ClampedArray) (sw sh : Z) : completion ImageData :=
  let length := Z.of_nat (length data) in
  if (length =? 0) || negb (length mod 4 =? 0) then Throw InvalidStateError
  else
    let length := length / 4 in
    if (sw <=? 0) || negb (length mod sw =? 0) then Throw IndexSizeError
    else if negb (sh =? length / sw) then Throw IndexSizeError
    else Normal {| width := sw; height := sh; data := data |}.

(** ** [gaussianBlur] *)

Definition rgba : Type := number * number * number * number.

(** The body of the loop over [k]: one tap of the kernel, on the sample
    at [idx] of [src], added to the four sums. *)
Definition tap (read : Z → number) (weight : number) (idx : Z) (acc : rgba) : rgba :=
  let '(r, g, b, a) := acc in
  (num_add r (num_mul (read idx) weight),
   num_add g (num_mul (read (idx + 1)) weight),
   num_add b (num_mul (read (idx + 2)) weight),
   num_add a (num_mul (read (idx + 3)) weight)).

Definition zero4 : rgba := (of_Z 0, of_Z 0, of_Z 0, of_Z 0).

Definition blur_rows (width height : Z) (data : Uint8ClampedArray)
    (kernel : Float32Array) (radius : Z) (temp : Float32Array) : Float32Array :=
  for_loop 0 height (λ y temp,
    for_loop 0 width (λ x temp,
      let '(r, g, b, a) :=
        for_loop (- radius) (radius + 1) (λ k acc,
          let px := clamp (x + k) 0 (width - 1) in
          let idx := (y * width + px) * 4 in
          let weight := f32_read kernel (k + radius) in
          tap (u8_read data) weight idx acc) zero4 in
      let outIdx := (y * width + x) * 4 in
      let temp := f32_set temp outIdx r in
      let temp := f32_set temp (outIdx + 1) g in
      let temp := f32_set temp (outIdx + 2) b in
      f32_set temp (outIdx + 3) a) temp) temp.

Definition blur_columns (width height : Z) (temp : Float32Array)
    (kernel : Float32Array) (radius : Z) (output : Uint8ClampedArray) : Uint8ClampedArray :=
  for_loop 0 height (λ y output,
    for_loop 0 width (λ x output,
      let '(r, g, b, a) :=
        for_loop (- radius) (radius + 1) (λ k acc,
          let py := clamp (y + k) 0 (height - 1) in
          let idx := (py * width + x) * 4 in
          let weight := f32_read kernel (k + radius) in
          tap (f32_read temp) weight idx acc) zero4 in
      let outIdx := (y * width + x) * 4 in
      let output := u8_set output outIdx r in
      let output := u8_set output (outIdx + 1) g in
      let output := u8_set output (outIdx + 2) b in
      u8_set output (outIdx + 3) a) output) output.

Definition gaussianBlur (imageData : ImageData) (size : Z) (sigma : number)
    : completion ImageData :=
  let '{| width := width; height := height; data := data |} := imageData in
  '{| kernel := kernel; radius := radius |} ← buildKernel size sigma;
  temp ← Float32Array_new (Z.of_nat (length data));
  output ← Uint8ClampedArray_new (Z.of_nat (length data));
  let temp := blur_rows width height data kernel radius temp in
  let output := blur_columns width height temp kernel radius output in
  ImageData_new output width height.

(** ** [sharpenImage] *)

(** The body of the loop over [channel]. *)
Definition sharpen_channel (width height : Z) (data : Uint8ClampedArray)
    (amount : number) (x y idx channel : Z) (output : Uint8ClampedArray)
    : Uint8ClampedArray :=
  let center := u8_read data (idx + channel) in
  let left := u8_read data ((y * width + clamp (x - 1) 0 (width - 1)) * 4 + channel) in
  let right := u8_read data ((y * width + clamp (x + 1) 0 (width - 1)) * 4 + channel) in
  let top := u8_read data ((clamp (y - 1) 0 (height - 1) * width + x) * 4 + channel) in
  let bottom := u8_read data ((clamp (y + 1) 0 (height - 1) * width + x) * 4 + channel) in
  let sharpened :=
    num_sub (num_mul center (num_add (of_Z 1) (num_mul amount (of_Z 4))))
            (num_mul amount (num_add (num_add (num_add left right) top) bottom)) in
  u8_set output (idx + channel) (clamp_num (Math_round sharpened) (of_Z 0) (of_Z 255)).

Definition sharpen_pixels (width height : Z) (data : Uint8ClampedArray)
    (amount : number) (output : Uint8ClampedArray) : Uint8ClampedArray :=
  for_loop 0 height (λ y output,
    for_loop 0 width (λ x output,
      let idx := (y * width + x) * 4 in
      let output :=
        for_loop 0 3 (λ channel output,
          sharpen_channel width height data amount x y idx channel output) output in
      u8_set output (idx + 3) (u8_read data (idx + 3))) output) output.

(** The part of [sharpenImage] after its guard. *)
Definition sharpen_new (imageData : ImageData) (amount : number)
    : completion ImageData :=
  let '{| width := width; height := height; data := data |} := imageData in
  output ← Uint8ClampedArray_new (Z.of_nat (length data));
  let output := sharpen_pixels width height data amount output in
  ImageData_new output width height.

Definition sharpenImage (imageData : ImageData) (amount : number)
    : completion ImageData :=
  if num_le amount (of_Z 0) then Normal imageData
  else sharpen_new imageData amount.

(** ** Image objects *)

(** [ImageData] values are objects: the functions receive and return
    references, [null] included, into a store of objects. *)
Definition loc := positive.
Abbreviation store := (gmap loc ImageData).

Definition deref (h : store) (r : option loc) : completion ImageData :=
  match r with
  | Some l => match h !! l with Some img => Normal img | None => Throw TypeError end
  | None => Throw TypeError
  end.

(** A new object, at a location that the store does not use. *)
Definition alloc (h : store) (img : ImageData) : store * option loc :=
  let l := fresh (dom h) in (<[l := img]> h, Some l).

Definition gaussianBlur_ref (h : store) (imageData : option loc) (size : Z)
    (sigma : number) : completion (store * option loc) :=
  img ← deref h imageData;
  out ← gaussianBlur img size sigma;
  Normal (alloc h out).

Definition sharpenImage_ref (h : store) (imageData : option loc)
    (amount : number) : completion (store * option loc) :=
  if num_le amount (of_Z 0) then Normal (h, imageData)
  else
    img ← deref h imageData;
    out ← sharpen_new img amount;
    Normal (alloc h out).

(** ** [formatKernel] and [runFilter] *)

(** [formatKernel] also writes two labels of the page; only its result is
  kept here. *)
Definition formatKernel (size : Z) : number :=
  Math_max lit_0_15 (num_div (of_Z size) (of_Z 6)).

(** The variables that the callback of [runFilter] closes over. *)
Record frame_callback := {
  cb_size : Z;
  cb_sigma : number;
  cb_sharpen : number;
}.

(** The state of the page that [runFilter] reads and writes. *)
Record page := {
  objects : store;
  originalImageData : option loc;
  currentImageData : option loc;
  isProcessing : bool;
  kernelSize_value : Z;
  sharpenAmount_value : number;
  (** the pixels that [outputCtx.putImageData] painted last *)
  outputCanvas : option ImageData;
  status : string;
  (** callbacks passed to [requestAnimationFrame], not yet run *)
  animationFrames : list frame_callback;
}.

Definition putImageData (h : store) (img : option loc) : completion ImageData :=
  deref h img.

Definition runFilter (s : page) : page :=
  match originalImageData s with
  | None => s
  | Some original =>
    if isProcessing s then s
    else
      let size := kernelSize_value s in
      let sigma := formatKernel size in
      let sharpen := sharpenAmount_value s in
      if (size <=? 1) && num_le sharpen (of_Z 0) then
        {| objects := objects s;
           originalImageData := originalImageData s;
           currentImageData := originalImageData s;
           isProcessing := isProcessing s;
           kernelSize_value := kernelSize_value s;
           sharpenAmount_value := sharpenAmount_value s;
           outputCanvas := objects s !! original;
           status := status s;
           animationFrames := animationFrames s |}
      else
        {| objects := objects s;
           originalImageData := originalImageData s;
           currentImageData := currentImageData s;
           isProcessing := true;
           kernelSize_value := kernelSize_value s;
           sharpenAmount_value := sharpenAmount_value s;
           outputCanvas := outputCanvas s;
           status := "Filtering...";
           animationFrames := animationFrames s ++
             [{| cb_size := size; cb_sigma := sigma; cb_sharpen := sharpen |}] |}
  end.

(** The [try] block of the callback: the store and the image to show. *)
Definition filter_try (h : store) (original : option loc) (cb : frame_callback)
    : completion (store * option loc * ImageData) :=
  '(h, blurred) ←
    (if cb_size cb >? 1 then gaussianBlur_ref h original (cb_size cb) (cb_sigma cb)
     else Normal (h, original));
  '(h, filtered) ←
    (if num_gt (cb_sharpen cb) (of_Z 0) then sharpenImage_ref h blurred (cb_sharpen cb)
     else Normal (h, blurred));
  painted ← putImageData h filtered;
  Normal (h, filtered, painted).

(** The callback, with its [catch] and [finally]. *)
Definition filter_frame (cb : frame_callback) (s : page) : page :=
  match filter_try (objects s) (originalImageData s) cb with
  | Normal (h, filtered, painted) =>
    {| objects := h;
       originalImageData := originalImageData s;
       currentImageData := filtered;
       isProcessing := false;
       kernelSize_value := kernelSize_value s;
       sharpenAmount_value := sharpenAmount_value s;
       outputCanvas := Some painted;
       status := "Filter applied.";
       animationFrames := animationFrames s |}
  | Throw _ =>
    {| objects := objects s;
       originalImageData := originalImageData s;
       currentImageData := currentImageData s;
       isProcessing := false;
       kernelSize_value := kernelSize_value s;
       sharpenAmount_value := sharpenAmount_value s;
       outputCanvas := outputCanvas s;
       status := "Filtering failed. Try smaller settings.";
       animationFrames := animationFrames s |}
  end.

(** The next animation frame: the callbacks queued so far run in order. *)
Definition animation_frame (s : page) : page :=
  foldl (λ s cb, filter_frame cb s)
    {| objects := objects s;
       originalImageData := originalImageData s;
       currentImageData := currentImageData s;
       isProcessing := isProcessing s;
       kernelSize_value := kernelSize_value s;
       sharpenAmount_value := sharpenAmount_value s;
       outputCanvas := outputCanvas s;
       status := status s;
       animationFrames := [] |}
    (animationFrames s).

End Filter.

Abbreviation store := (gmap loc ImageData).
Arguments alloc : simpl never.

(** ** Binary64 numbers *)

Module F64.

(** The Number of an integer. *)
Definition of_Z (z : Z) : float := SF2Prim (binary_normalize prec emax z 0 false).

(** [Math.fround]: round to binary32, to nearest, ties to even. *)
Definition fround (x : float) : float :=
  match Prim2SF x with
  | S754_finite s m e => SF2Prim (binary_round 24 128 s m e)
  | _ => x
  end.

(** The integer [floor (m * 2^e + 1/2)]. *)
Definition round_half_up (m e : Z) : Z :=
  if 0 <=? e then m * 2 ^ e
  else (m + 2 ^ (- e - 1)) / 2 ^ (- e).

(** The integer nearest to [m * 2^e], the even one at a tie. *)
Definition round_half_even (m e : Z) : Z :=
  if 0 <=? e then m * 2 ^ e
  else
    let d := 2 ^ (- e) in
    let f := m / d in
    match 2 * (m mod d) ?= d with
    | Lt => f
    | Gt => f + 1
    | Eq => if Z.even f then f else f + 1
    end.

(** [Math.round]: NaN, the infinities and the integers are kept; a result
    that is zero has the sign of the argument. *)
Definition round (x : float) : float :=
  match Prim2SF x with
  | S754_finite s m e =>
    let n := round_half_up (cond_Zopp s (Zpos m)) e in
    if n =? 0 then (if s then neg_zero else zero) else of_Z n
  | _ => x
  end.

(** [ToUint8Clamp]: NaN is 0, then clamp to [0, 255], then round to
    nearest, ties to even; on the value [m * 2^e] of a finite number. *)
Definition to_uint8_clamp (x : float) : Z :=
  match Prim2SF x with
  | S754_nan => 0
  | S754_zero _ => 0
  | S754_infinity s => if s then 0 else 255
  | S754_finite s m e =>
    if s then 0
    else if (if 0 <=? e then 255 <=? Zpos m * 2 ^ e else 255 * 2 ^ (- e) <=? Zpos m)
    then 255
    else round_half_even (Zpos m) e
  end.

(** [Math.max] and [Math.min]: NaN if an argument is NaN; [+0] is larger
    than [-0]. *)
Definition max (a b : float) : float :=
  if is_nan a || is_nan b then nan
  else if (a <? b)%float then b
  else if (b <? a)%float then a
  else if is_zero a && get_sign a then b else a.
Definition min (a b : float) : float :=
  if is_nan a || is_nan b then nan
  else if (a <? b)%float then a
  else if (b <? a)%float then b
  else if is_zero a && negb (get_sign a) then b else a.

(** [Math.exp]: the language fixes the result at NaN, at the zeros and at
    the infinities, and leaves the rest to the implementation, [approx]. *)
Definition exp (approx : float → float) (x : float) : float :=
  if is_nan x then nan
  else if is_zero x then 1%float
  else if is_infinity x then (if get_sign x then 0%float else infinity)
  else approx x.

(** The integer part of a finite number, towards zero. *)
Definition trunc (x : float) : Z :=
  match Prim2SF x with
  | S754_finite s m e =>
    cond_Zopp s (if 0 <=? e then Zpos m * 2 ^ e else Zpos m / 2 ^ (- e))
  | _ => 0
  end.

(** An implementation of the exponential on finite numbers, after the
    one of fdlibm: the argument is reduced to [r = x - k ln 2],
    [exp r] comes from a rational approximation, and the result is
    scaled by [2^k]. *)
Definition exp_fdlibm (x : float) : float :=
  let ln2HI := 0x1.62e42feep-1%float in
  let ln2LO := 0x1.a39ef35793c76p-33%float in
  let invln2 := 0x1.71547652b82fep+0%float in
  let P1 := 0x1.555555555553ep-3%float in
  let P2 := (-0x1.6c16c16bebd93p-9)%float in
  let P3 := 0x1.1566aaf25de2cp-14%float in
  let P4 := (-0x1.bbd41c5d26bf1p-20)%float in
  let P5 := 0x1.6376972bea4d0p-25%float in
  if (0x1.62e42fefa39efp+9 <? x)%float then infinity
  else if (x <? -0x1.74910d52d3051p+9)%float then 0%float
  else if (abs x <? 0x1p-28)%float then (1 + x)%float
  else
    let k :=
      if (abs x <=? 0x1.62e42fefa39efp-2)%float then 0
      else trunc (invln2 * x + (if (x <? 0)%float then -0.5 else 0.5))%float in
    let t := of_Z k in
    let hi := (x - t * ln2HI)%float in
    let lo := (t * ln2LO)%float in
    let r := (hi - lo)%float in
    let t2 := (r * r)%float in
    let c := (r - t2 * (P1 + t2 * (P2 + t2 * (P3 + t2 * (P4 + t2 * P5)))))%float in
    let y := (1 - ((lo - (r * c) / (2 - c)) - hi))%float in
    Z.ldexp y k.

(** The value of a finite number, as a rational number. *)
Definition to_Q (x : float) : option Q :=
  match Prim2SF x with
  | S754_zero _ => Some 0%Q
  | S754_finite s m e =>
    Some (if 0 <=? e then inject_Z (cond_Zopp s (Zpos m) * 2 ^ e)
          else Qmake (cond_Zopp s (Zpos m)) (Z.to_pos (2 ^ (- e))))
  | _ => None
  end.

(** The sum of finite numbers, without rounding. *)
Definition sum_Q (l : list float) : option Q :=
  foldl (λ acc x, a ← acc; q ← to_Q x; Some (Qred (a + q))) (Some 0%Q) l.

End F64.

(** Numbers as binary64 floating-point numbers, for an implementation
    [approx] of the exponential. *)
Definition Float64 (approx : float → float) : JSNumber := {|
  number := float;
  of_Z := F64.of_Z;
  NaN := nan;
  lit_0_15 := 0x1.3333333333333p-3%float;
  num_add := PrimFloat.add;
  num_sub := PrimFloat.sub;
  num_mul := PrimFloat.mul;
  num_div := PrimFloat.div;
  num_neg := PrimFloat.opp;
  num_le := PrimFloat.leb;
  num_gt := λ a b, PrimFloat.ltb b a;
  Math_exp := F64.exp approx;
  Math_round := F64.round;
  Math_max := F64.max;
  Math_min := F64.min;
  Math_fround := F64.fround;
  ToUint8Clamp := F64.to_uint8_clamp;
|}.

Definition JS : JSNumber := Float64 F64.exp_fdlibm.

(** ** Exact numbers *)

Inductive xreal :=
  | Xnan
  | Xreal (r : R).

Module Exact.

Definition lift1 (f : R → R) (a : xreal) : xreal :=
  match a with Xreal a => Xreal (f a) | Xnan => Xnan end.
Definition lift2 (f : R → R → R) (a b : xreal) : xreal :=
  match a, b with Xreal a, Xreal b => Xreal (f a b) | _, _ => Xnan end.

(** A division by zero has no real value: it is a NaN here. *)
Definition div (a b : xreal) : xreal :=
  match a, b with
  | Xreal a, Xreal b => if Req_dec_T b 0 then Xnan else Xreal (a / b)
  | _, _ => Xnan
  end.

Definition le (a b : xreal) : bool :=
  match a, b with
  | Xreal a, Xreal b => if Rle_dec a b then true else false
  | _, _ => false
  end.
Definition gt (a b : xreal) : bool :=
  match a, b with
  | Xreal a, Xreal b => if Rlt_dec b a then true else false
  | _, _ => false
  end.

Definition floor (r : R) : Z := up r - 1.

Definition round (a : xreal) : xreal :=
  lift1 (λ r, IZR (floor (r + / 2))) a.

Definition to_uint8_clamp (a : xreal) : Z :=
  match a with
  | Xnan => 0
  | Xreal r =>
    if Rle_dec r 0 then 0
    else if Rle_dec 255 r then 255
    else
      let f := floor r in
      if Rlt_dec (IZR f + / 2) r then f + 1
      else if Rlt_dec r (IZR f + / 2) then f
      else if Z.even f then f else f + 1
  end.

End Exact.

(** Numbers as real numbers: no operation rounds, [Math.fround] included. *)
Definition ExactNumber : JSNumber := {|
  number := xreal;
  of_Z := λ z, Xreal (IZR z);
  NaN := Xnan;
  lit_0_15 := Xreal (15 / 100);
  num_add := Exact.lift2 Rplus;
  num_sub := Exact.lift2 Rminus;
  num_mul := Exact.lift2 Rmult;
  num_div := Exact.div;
  num_neg := Exact.lift1 Ropp;
  num_le := Exact.le;
  num_gt := Exact.gt;
  Math_exp := Exact.lift1 exp;
  Math_round := Exact.round;
  Math_max := Exact.lift2 Rmax;
  Math_min := Exact.lift2 Rmin;
  Math_fround := λ a, a;
  ToUint8Clamp := Exact.to_uint8_clamp;
|}.

(** ** The shape that the pixel loops share *)

(** Four stores, at [i], [i + 1], [i + 2] and [i + 3]. *)
Definition set4 {A : Type} (out : list A) (i : Z) (v : Z → A) : list A :=
  array_set (array_set (array_set (array_set out i (v 0)) (i + 1) (v 1))
    (i + 2) (v 2)) (i + 3) (v 3).

(** Rows from the first to the last, pixels from left to right, the four
    samples of a pixel stored from a function of its position. *)
Definition write_pixels {A : Type} (width height : Z) (f : Z → Z → Z → A)
    (out : list A) : list A :=
  for_loop 0 height (λ y out,
    for_loop 0 width (λ x out, set4 out ((y * width + x) * 4) (f x y)) out) out.

(** The index of channel [c] of the pixel at column [x] of row [y]. *)
Definition sample_index (width x y c : Z) : Z := (y * width + x) * 4 + c.

Section FilterSpec.
Context `{N : JSNumber}.

(** A pixel buffer: [width * height] pixels of four samples, each in
    [0, 255]. *)
Definition well_formed (img : ImageData) : bool :=
  (0 <? width img) && (0 <? height img)
  && (Z.of_nat (length (data img)) =? 4 * width img * height img)
  && forallb (λ b, (0 <=? b) && (b <=? 255)) (data img).

(** The sum of one window: the taps from [- radius] to [radius], each
    sample times its weight, added in this order from 0. *)
Definition convolve (kernel : Float32Array) (radius : Z) (sample : Z → number)
    : number :=
  for_loop (- radius) (radius + 1) (λ k acc,
    num_add acc (num_mul (sample k) (f32_read kernel (k + radius)))) (of_Z 0).

(** Pass 1: along the row, the column clamped to [0, width - 1]. *)
Definition row_pass (width : Z) (data : Uint8ClampedArray)
    (kernel : Float32Array) (radius x y c : Z) : number :=
  convolve kernel radius (λ k,
    u8_read data (sample_index width (clamp (x + k) 0 (width - 1)) y c)).

(** Pass 2: along the column, the row clamped to [0, height - 1]. *)
Definition column_pass (width height : Z) (temp : Float32Array)
    (kernel : Float32Array) (radius x y c : Z) : number :=
  convolve kernel radius (λ k,
    f32_read temp (sample_index width x (clamp (y + k) 0 (height - 1)) c)).

(** The sharpened value of a color sample, before it is rounded. *)
Definition sharpened (width height : Z) (data : Uint8ClampedArray)
    (amount : number) (x y c : Z) : number :=
  let center := u8_read data (sample_index width x y c) in
  let left := u8_read data (sample_index width (clamp (x - 1) 0 (width - 1)) y c) in
  let right := u8_read data (sample_index width (clamp (x + 1) 0 (width - 1)) y c) in
  let top := u8_read data (sample_index width x (clamp (y - 1) 0 (height - 1)) c) in
  let bottom := u8_read data (sample_index width x (clamp (y + 1) 0 (height - 1)) c) in
  num_sub (num_mul center (num_add (of_Z 1) (num_mul amount (of_Z 4))))
          (num_mul amount (num_add (num_add (num_add left right) top) bottom)).

(** What [sharpenImage] stores in channel [c] of a pixel. *)
Definition sharpen_sample w h data amount x y c : Z :=
  if c =? 3 then ToUint8Clamp (u8_read data (sample_index w x y 3))
  else ToUint8Clamp (clamp_num (Math_round (sharpened w h data amount x y c)) (of_Z 0) (of_Z 255)).

(** The pipeline as the specification words it: the input itself when
    there is nothing to do; otherwise the blur if [kernelSize > 1], then
    the sharpen if [sharpenAmount > 0]. *)
Definition FilterPipeline_apply (buffer : ImageData) (kernelSize : Z)
    (sharpenAmount : number) : completion ImageData :=
  if (kernelSize <=? 1) && num_le sharpenAmount (of_Z 0) then Normal buffer
  else
    let sigma := Math_max lit_0_15 (num_div (of_Z kernelSize) (of_Z 6)) in
    blurred ← (if 1 <? kernelSize then gaussianBlur buffer kernelSize sigma
               else Normal buffer);
    if num_gt sharpenAmount (of_Z 0) then sharpenImage blurred sharpenAmount
    else Normal blurred.

(** A step of the [try] block either passes its input on, with the
    store as it was, or returns a new pixel buffer. *)
Definition passed_or_new (h0 : store) (r0 : option loc) (h1 : store)
    (r1 : option loc) : Prop :=
  (h1 = h0 ∧ r1 = r0) ∨
  ∃ l out, r1 = Some l ∧ h0 ⊆ h1 ∧ h0 !! l = None ∧ h1 !! l = Some out ∧
    well_formed out = true.

(** The sum that [buildKernel] divides by: the values at all the offsets
    from [- radius] to [radius], added in this order from 0. *)
Definition kernel_total (sigma2 : number) (radius : Z) : number :=
  for_loop (- radius) (radius + 1) (λ i sum, num_add sum (gaussian sigma2 i))
    (of_Z 0).

(** The facts about Numbers that the proofs use. *)
Class JSNumberLaws : Prop := {
  num_gt_not_le a : num_gt a (of_Z 0) = true → num_le a (of_Z 0) = false;
  ToUint8Clamp_of_Z b : 0 ≤ b ≤ 255 → ToUint8Clamp (of_Z b) = b;
  ToUint8Clamp_range a : 0 ≤ ToUint8Clamp a ≤ 255;
}.

End FilterSpec.

(** ** Sums of real numbers *)

(** The sum of a list, added from the left. *)
Definition Rsum (l : list R) : R := foldl Rplus 0%R l.

(** The Gaussian of [buildKernel] at offset [i], as a real number. *)
Definition gaussian_R (s : R) (i : Z) : R := exp (- IZR (i * i) / (2 * (s * s))).

(** ** Inputs of the examples *)

(** One pixel. *)
Definition one_pixel : ImageData :=
  {| width := 1; height := 1; data := [10; 20; 30; 255] |}.

(** A white pixel at the center of a black 3 x 3 image. *)
Definition impulse3 : ImageData :=
  {| width := 3; height := 3;
     data := [0; 0; 0; 255;  0; 0; 0; 255;  0; 0; 0; 255;
              0; 0; 0; 255;  255; 255; 255; 255;  0; 0; 0; 255;
              0; 0; 0; 255;  0; 0; 0; 255;  0; 0; 0; 255] |}.

(** The uniform gray 3 x 3 image. *)
Definition gray3 : ImageData :=
  {| width := 3; height := 3; data := concat (replicate 9 [128; 128; 128; 255]) |}.

(** Dimensions that do not fit the data. *)
Definition malformed : ImageData :=
  {| width := 1; height := 2; data := [10; 20; 30; 255] |}.

(** The odd sizes from 1 to 99 and the even sizes from 2 to 100. *)
Definition odd_sizes : list Z := (λ i, 2 * i + 1) <$> seqZ 0 50.
Definition even_sizes : list Z := (λ i, 2 * i + 2) <$> seqZ 0 50.

(** The sum, without rounding, of the binary64 weights of the kernel of a
    size, for the sigma of [formatKernel]. *)
Definition kernel_sum (size : Z) : option Q :=
  match buildKernel (N:=JS) size (formatKernel (N:=JS) size) with
  | Normal k => F64.sum_Q (kernel k)
  | Throw _ => None
  end.

(** A page with an image loaded and the sliders at 3 and 0.5. *)
Definition page_loaded (img : ImageData) : @page JS :=
  @Build_page JS {[1%positive := img]} (Some 1%positive) (Some 1%positive)
    false 3 0.5%float (Some img) "Image loaded." [].

(** The callback that [runFilter] queues with the sliders at 3 and 0.5,
    but for a sigma of 0.5. *)
Definition callback_3 : @frame_callback JS :=
  @Build_frame_callback JS 3 0.5%float 0.5%float.

(** ** The listeners of the sliders and of the reset button *)

Section Listeners.
Context `{N : JSNumber}.

(** The sliders hold [size] and [sharpen]. *)
Definition set_slider_values (size : Z) (sharpen : number) (s : page) : page :=
  {| objects := objects s;
     originalImageData := originalImageData s;
     currentImageData := currentImageData s;
     isProcessing := isProcessing s;
     kernelSize_value := size;
     sharpenAmount_value := sharpen;
     outputCanvas := outputCanvas s;
     status := status s;
     animationFrames := animationFrames s |}.

(** The [input] listener of [kernelSize], when the user has moved the
    slider to [value]: a label is written, then [runFilter] is called. *)
Definition kernelSize_input (value : Z) (s : page) : page :=
  runFilter (set_slider_values value (sharpenAmount_value s) s).

(** The [input] listener of [sharpenAmount]. *)
Definition sharpenAmount_input (value : number) (s : page) : page :=
  runFilter (set_slider_values (kernelSize_value s) value s).

(** The [click] listener of [resetBtn]: both sliders are set, to 1 and to
    0, the labels are written, then [runFilter] is called. *)
Definition resetBtn_click (s : page) : page :=
  runFilter (set_slider_values 1 (of_Z 0) s).

(** What happens on the page once an image is there: the user moves a
    slider, clicks the reset button, or the browser runs the next
    animation frame. *)
Inductive event :=
  | KernelSizeInput (value : Z)
  | SharpenAmountInput (value : number)
  | ResetClick
  | AnimationFrame.

Definition dispatch (e : event) (s : page) : page :=
  match e with
  | KernelSizeInput value => kernelSize_input value s
  | SharpenAmountInput value => sharpenAmount_input value s
  | ResetClick => resetBtn_click s
  | AnimationFrame => animation_frame s
  end.

Definition dispatch_all (es : list event) (s : page) : page :=
  foldl (λ s e, dispatch e s) s es.

Definition is_frame (e : event) : bool :=
  match e with AnimationFrame => true | _ => false end.

(** A run of the filter is pending exactly when [isProcessing] is set,
    and then one callback is queued. *)
Definition idle_or_pending (s : page) : Prop :=
  if isProcessing s then ∃ cb, animationFrames s = [cb]
  else animationFrames s = [].

(** Two pages that differ at most in the values of the sliders. *)
Definition same_but_sliders (s s' : page) : Prop :=
  objects s' = objects s ∧
  originalImageData s' = originalImageData s ∧
  currentImageData s' = currentImageData s ∧
  isProcessing s' = isProcessing s ∧
  outputCanvas s' = outputCanvas s ∧
  status s' = status s ∧
  animationFrames s' = animationFrames s.

End Listeners.

(** ** Shapes of images *)

(** The dimensions are positive and fit the length of the data; the
    samples may be anything. *)
Definition buffer_shape (img : ImageData) : bool :=
  (0 <? width img) && (0 <? height img)
  && (Z.of_nat (length (data img)) =? 4 * width img * height img).

(** The samples of channel [c] are all [v]. *)
Definition flat_channel (img : ImageData) (c v : Z) : Prop :=
  ∀ x y, 0 ≤ x < width img → 0 ≤ y < height img →
    array_get (data img) (sample_index (width img) x y c) = Some v.

(** Every pixel of the image is [px], given by channel. *)
Definition flat (img : ImageData) (px : Z → Z) : Prop :=
  ∀ x y c, 0 ≤ x < width img → 0 ≤ y < height img → 0 ≤ c < 4 →
    array_get (data img) (sample_index (width img) x y c) = Some (px c).

(** The samples of channel [c] are the same in two images. *)
Definition same_channel (c : Z) (img1 img2 : ImageData) : Prop :=
  ∀ x y, 0 ≤ x < width img1 → 0 ≤ y < height img1 →
    array_get (data img1) (sample_index (width img1) x y c) =
    array_get (data img2) (sample_index (width img1) x y c).



(** ** The stages on uniform images *)

Section FlatSamples.
Context `{N : JSNumber}.

(** The data that [gaussianBlur] passes to [new ImageData]. *)
Definition blurred_data (img : ImageData) (k : Kernel) : Uint8ClampedArray :=
  let temp :=
    write_pixels (width img) (height img)
      (λ x y c, Math_fround (row_pass (width img) (data img) (kernel k) (radius k) x y c))
      (replicate (length (data img)) (of_Z 0)) in
  write_pixels (width img) (height img)
    (λ x y c, ToUint8Clamp (column_pass (width img) (height img) temp (kernel k) (radius k) x y c))
    (replicate (length (data img)) 0).

(** The two passes of the blur on a window of equal samples [v]: what is
    stored for the sample. *)
Definition blur_flat_sample (k : Kernel) (v : Z) : Z :=
  let temp := Math_fround (convolve (kernel k) (radius k) (λ _, of_Z v)) in
  ToUint8Clamp (convolve (kernel k) (radius k) (λ _, temp)).

(** The sharpen on a neighborhood of equal samples [v]: what is stored. *)
Definition sharpen_flat_sample (amount : number) (v : Z) : Z :=
  let center := of_Z v in
  ToUint8Clamp
    (clamp_num
       (Math_round
          (num_sub (num_mul center (num_add (of_Z 1) (num_mul amount (of_Z 4))))
             (num_mul amount (num_add (num_add (num_add center center) center) center))))
       (of_Z 0) (of_Z 255)).

End FlatSamples.

(** ** The size of a loaded image, in [applyImage] *)

(** The attributes of an image element that [applyImage] reads. *)
Record Image := {
  naturalWidth : Z;
  naturalHeight : Z;
  Image_width : Z;
  Image_height : Z;
}.

Definition MAX_DIMENSION : Z := 1400.

(** [a || b] on two numbers: [b] when [a] is 0. *)
Definition or_else (a b : Z) : Z := if a =? 0 then b else a.

Section ApplyImage.
Context `{N : JSNumber}.

(** The constants [scale], [width] and [height] of [applyImage]. *)
Definition applyImage_scale (img : Image) : number :=
  Math_min (of_Z 1)
    (num_div (of_Z MAX_DIMENSION)
       (Math_max (of_Z (or_else (naturalWidth img) (Image_width img)))
                 (of_Z (or_else (naturalHeight img) (Image_height img))))).

Definition applyImage_width (img : Image) : number :=
  Math_round (num_mul (of_Z (or_else (naturalWidth img) (Image_width img)))
                (applyImage_scale img)).

Definition applyImage_height (img : Image) : number :=
  Math_round (num_mul (of_Z (or_else (naturalHeight img) (Image_height img)))
                (applyImage_scale img)).

End ApplyImage.

(** ** Tables over binary64 numbers *)

(** The samples from 0 to 255, each with its Number. *)
Definition flat_samples : list (Z * float) :=
  (λ v, (v, F64.of_Z v)) <$> seqZ 0 256.

(** The sum of a window whose samples are all [c]: one product per
    weight, added in order from 0. *)
Definition F64_window_sum (ker : list float) (c : float) : float :=
  foldl (λ acc w, acc + c * w)%float 0%float ker.

(** The two passes of the blur on equal samples, and the store. *)
Definition F64_blur_flat (ker : list float) (c : float) : Z :=
  F64.to_uint8_clamp (F64_window_sum ker (F64.fround (F64_window_sum ker c))).

(** For the kernel of a size with the sigma of [formatKernel]: the
    kernel has [2 radius + 1] weights, and the blur keeps a window of
    equal samples, whatever the sample. *)
Definition blur_keeps_flat (size : Z) : bool :=
  match buildKernel (N:=JS) size (formatKernel (N:=JS) size) with
  | Normal k =>
      (Z.of_nat (length (kernel k)) =? 2 * radius k + 1)
      && forallb (λ '(v, c), F64_blur_flat (kernel k) c =? v) flat_samples
  | Throw _ => false
  end.

(** [Math.round r] is the integer [v]: the value of [r] plus one half,
    rounded down. *)
Definition rounds_to (r : float) (v : Z) : bool :=
  match Prim2SF r with
  | S754_finite s m e => F64.round_half_up (cond_Zopp s (Zpos m)) e =? v
  | S754_zero _ => v =? 0
  | _ => false
  end.

(** The sharpened value of a sample [c] whose four neighbors are [c]. *)
Definition F64_sharpen_flat (a c : float) : float :=
  (c * (1 + a * 4) - a * (c + c + c + c))%float.

(** The amounts from 0 to 10 by steps of 0.1. *)
Definition tenths (k : Z) : float := (F64.of_Z k / 10)%float.

(** The sharpen of an amount keeps a neighborhood of equal samples,
    whatever the sample. *)
Definition sharpen_keeps_flat (k : Z) : bool :=
  let a := tenths k in
  forallb (λ '(v, c), rounds_to (F64_sharpen_flat a c) v) flat_samples.

(** The store of an integer, after the clamp. *)
Definition store_keeps (n : Z) : bool :=
  F64.to_uint8_clamp (F64.max 0 (F64.min 255 (F64.of_Z n))) =? n.

(** For a dimension [n]: its Number is not a NaN, the scale for a greater
    dimension [n] is 1, and [n] times 1 is rounded to [n]. *)
Definition F64_unscaled (n : Z) : bool :=
  let x := F64.of_Z n in
  negb (is_nan x)
  && Leibniz.eqb (F64.min 1 (1400 / x))%float 1%float
  && rounds_to (x * 1)%float n.

(** Further inputs of the examples: a page before any image is loaded,
    and a page that waits for its animation frame. *)
Definition page_empty : @page JS :=
  @Build_page JS ∅ None None false 1 0%float None "" [].

Definition page_pending (img : ImageData) : @page JS :=
  runFilter (N:=JS) (page_loaded img).

(** Sessions: the sliders and the reset button used, then a frame; a
    blur of size 5 shown; two requests with no frame between them. *)
Definition session_sliders : list (@event JS) :=
  [KernelSizeInput 5; SharpenAmountInput (N:=JS) 1.5%float; ResetClick; AnimationFrame].

Definition session_blur_5 : list (@event JS) :=
  [KernelSizeInput 5; AnimationFrame].

Definition session_no_frame : list (@event JS) :=
  [KernelSizeInput 9; ResetClick].


Definition icon : Image :=
  {| naturalWidth := 64; naturalHeight := 48; Image_width := 64; Image_height := 48 |}.

(** * Proofs *)

(** ** Loops *)

Lemma for_loop_nil {St} lo hi (body : Z → St → St) s :
  hi ≤ lo → for_loop lo hi body s = s.
Proof. intros. unfold for_loop. by rewrite seqZ_nil by lia. Qed.

Lemma for_loop_snoc {St} lo hi (body : Z → St → St) s :
  lo ≤ hi → for_loop lo (hi + 1) body s = body hi (for_loop lo hi body s).
Proof.
  intros. unfold for_loop.
  replace (hi + 1 - lo) with ((hi - lo) + 1) by lia.
  rewrite (seqZ_app lo (hi - lo) 1) by lia. rewrite foldl_app.
  replace (lo + (hi - lo)) with hi by lia.
  rewrite (seqZ_cons hi 1) by lia. rewrite (seqZ_nil (Z.succ hi)) by lia. done.
Qed.

Lemma for_loop_ind {St} (P : Z → St → Prop) lo hi (body : Z → St → St) s :
  lo ≤ hi →
  P lo s →
  (∀ i s, lo ≤ i < hi → P i s → P (i + 1) (body i s)) →
  P hi (for_loop lo hi body s).
Proof.
  intros Hle H0 Hstep.
  assert (∀ n : nat, lo + Z.of_nat n ≤ hi → P (lo + Z.of_nat n) (for_loop lo (lo + Z.of_nat n) body s)) as Hn.
  { induction n as [|n IH]; intros Hb.
    - rewrite Z.add_0_r. rewrite for_loop_nil by lia. done.
    - replace (lo + Z.of_nat (S n)) with ((lo + Z.of_nat n) + 1) by lia.
      rewrite for_loop_snoc by lia. apply Hstep; [lia|]. apply IH. lia. }
  specialize (Hn (Z.to_nat (hi - lo))).
  replace (lo + Z.of_nat (Z.to_nat (hi - lo))) with hi in Hn by lia.
  apply Hn. lia.
Qed.

Lemma for_loop_ext {St} lo hi (f g : Z → St → St) s :
  (∀ i s, lo ≤ i < hi → f i s = g i s) →
  for_loop lo hi f s = for_loop lo hi g s.
Proof.
  intros Hfg. destruct (decide (lo ≤ hi)) as [Hle|Hgt].
  - apply (for_loop_ind (λ i s', s' = for_loop lo i g s) lo hi f s); [done| |].
    + by rewrite for_loop_nil by lia.
    + intros i s' Hi ->. rewrite for_loop_snoc by lia. by apply Hfg.
  - by rewrite !for_loop_nil by lia.
Qed.

(** ** Arrays *)

Lemma length_array_set {A} (a : list A) i v : length (array_set a i v) = length a.
Proof. unfold array_set. destruct (i <? 0); [done|]. by rewrite length_insert. Qed.

Lemma array_get_set {A} (a : list A) i j v :
  array_get (array_set a i v) j =
    if decide (j = i ∧ 0 ≤ i < Z.of_nat (length a)) then Some v else array_get a j.
Proof.
  unfold array_get, array_set.
  destruct (Z.ltb_spec i 0), (Z.ltb_spec j 0); case_decide; try done; try lia.
  - destruct_and!. subst. rewrite list_lookup_insert_eq by lia. done.
  - destruct (decide (Z.to_nat i = Z.to_nat j)) as [Heq|Hne].
    + assert (i = j) by lia. subst. rewrite list_insert_ge by lia. done.
    + by rewrite list_lookup_insert_ne.
Qed.


(** ** The pixel loops *)

Lemma length_set4 {A} (a : list A) i v : length (set4 a i v) = length a.
Proof. unfold set4. by rewrite !length_array_set. Qed.

Lemma array_get_set4 {A} (a : list A) i j v :
  0 ≤ i → i + 3 < Z.of_nat (length a) →
  array_get (set4 a i v) j =
    if decide (i ≤ j < i + 4) then Some (v (j - i)) else array_get a j.
Proof.
  intros Hi Hlen. unfold set4.
  rewrite !array_get_set, !length_array_set.
  repeat case_decide; try lia; try done.
  - by replace (j - i) with 3 by lia.
  - by replace (j - i) with 2 by lia.
  - by replace (j - i) with 1 by lia.
  - by replace (j - i) with 0 by lia.
Qed.

Lemma length_write_pixels {A} w h (f : Z → Z → Z → A) out :
  length (write_pixels w h f out) = length out.
Proof.
  unfold write_pixels.
  destruct (decide (0 ≤ h)); [|by rewrite for_loop_nil by lia].
  apply (for_loop_ind (λ _ o, length o = length out)); [done..|].
  intros y o _ Ho.
  destruct (decide (0 ≤ w)); [|by rewrite for_loop_nil by lia].
  apply (for_loop_ind (λ _ o, length o = length out)); [done..|].
  intros x o' _ Ho'. by rewrite length_set4.
Qed.

(** After [write_pixels] on an array of [4 * w * h] elements, every sample
    of every pixel is the one computed for its position. *)
Lemma write_pixels_get {A} w h (f : Z → Z → Z → A) out x y c :
  Z.of_nat (length out) = 4 * w * h →
  0 ≤ x < w → 0 ≤ y < h → 0 ≤ c < 4 →
  array_get (write_pixels w h f out) (sample_index w x y c) = Some (f x y c).
Proof.
  intros Hlen Hx Hy Hc. unfold write_pixels.
  pose (Inv := λ (p : Z) (o : list A),
    length o = length out ∧
    ∀ x' y' c', 0 ≤ x' < w → 0 ≤ y' → y' * w + x' < p → 0 ≤ c' < 4 →
      array_get o (sample_index w x' y' c') = Some (f x' y' c')).
  assert (Inv (h * w) (for_loop 0 h (λ y out,
    for_loop 0 w (λ x out, set4 out ((y * w + x) * 4) (f x y)) out) out)) as [_ HI].
  { apply (for_loop_ind (λ y o, Inv (y * w) o)); [lia| |].
    - split; [done|]. intros; nia.
    - intros y0 o Hy0 HInv.
      replace ((y0 + 1) * w) with (y0 * w + w) by lia.
      apply (for_loop_ind (λ x o, Inv (y0 * w + x) o)); [lia| |].
      + by rewrite Z.add_0_r.
      + intros x0 o' Hx0 [Hl HI]. split; [by rewrite length_set4|].
        intros x' y' c' Hx' Hy' Hp Hc'.
        rewrite array_get_set4 by nia.
        unfold sample_index. case_decide as Hd.
        * assert (y' * w + x' = y0 * w + x0) as Hpp by lia.
          assert (y' = y0) by nia. assert (x' = x0) by nia. subst.
          f_equal. f_equal. lia.
        * apply HI; try done. nia. }
  apply HI; try lia. nia.
Qed.

(** ** The code, for every semantics of Numbers *)

Section FilterProofs.
Context `{N : JSNumber}.

(** The loop over [k] adds up the four channels side by side. *)
Lemma tap_loop (read : Z → number) (wt : Z → number) (idx : Z → Z) lo hi acc :
  for_loop lo hi (λ k acc, tap read (wt k) (idx k) acc) acc =
  (for_loop lo hi (λ k r, num_add r (num_mul (read (idx k + 0)) (wt k))) acc.1.1.1,
   for_loop lo hi (λ k r, num_add r (num_mul (read (idx k + 1)) (wt k))) acc.1.1.2,
   for_loop lo hi (λ k r, num_add r (num_mul (read (idx k + 2)) (wt k))) acc.1.2,
   for_loop lo hi (λ k r, num_add r (num_mul (read (idx k + 3)) (wt k))) acc.2).
Proof.
  unfold for_loop. generalize (seqZ lo (hi - lo)) as l. intros l.
  revert acc. induction l as [|k l IH]; intros [[[r g] b] a]; [done|].
  simpl. rewrite IH. simpl. by rewrite Z.add_0_r.
Qed.

Lemma blur_rows_write_pixels w h data kernel radius temp :
  blur_rows w h data kernel radius temp =
  write_pixels w h (λ x y c, Math_fround (row_pass w data kernel radius x y c)) temp.
Proof.
  unfold blur_rows, write_pixels.
  apply for_loop_ext. intros y t _. apply for_loop_ext. intros x t' _.
  rewrite tap_loop. simpl. unfold set4, f32_set, row_pass, convolve, sample_index.
  done.
Qed.

Lemma blur_columns_write_pixels w h temp kernel radius output :
  blur_columns w h temp kernel radius output =
  write_pixels w h (λ x y c, ToUint8Clamp (column_pass w h temp kernel radius x y c)) output.
Proof.
  unfold blur_columns, write_pixels.
  apply for_loop_ext. intros y t _. apply for_loop_ext. intros x t' _.
  rewrite tap_loop. simpl. unfold set4, u8_set, column_pass, convolve, sample_index.
  done.
Qed.

Lemma sharpen_pixels_write_pixels w h data amount output :
  sharpen_pixels w h data amount output =
  write_pixels w h (sharpen_sample w h data amount) output.
Proof.
  unfold sharpen_pixels, write_pixels.
  apply for_loop_ext. intros y t _. apply for_loop_ext. intros x t' _.
  unfold for_loop. simpl. 
  unfold set4, u8_set, sharpen_channel, sharpen_sample, sharpened, sample_index.
  simpl. rewrite !Z.add_0_r. done.
Qed.

(** ** [clamp] and well-formed images *)

Lemma clamp_spec v lo hi :
  lo ≤ hi →
  clamp v lo hi = (if v <? lo then lo else if hi <? v then hi else v).
Proof.
  intros. unfold clamp.
  destruct (Z.ltb_spec v lo), (Z.ltb_spec hi v); lia.
Qed.

Lemma clamp_range v lo hi : lo ≤ hi → lo ≤ clamp v lo hi ≤ hi.
Proof. unfold clamp. lia. Qed.

Lemma well_formed_spec img :
  well_formed img = true ↔
  0 < width img ∧ 0 < height img ∧
  Z.of_nat (length (data img)) = 4 * width img * height img ∧
  Forall (λ b, 0 ≤ b ≤ 255) (data img).
Proof.
  unfold well_formed. rewrite !andb_true_iff, forallb_forall, Forall_forall.
  rewrite !Z.ltb_lt, Z.eqb_eq.
  setoid_rewrite andb_true_iff. setoid_rewrite Z.leb_le.
  setoid_rewrite <- list_elem_of_In. tauto.
Qed.

(** ** Allocation of arrays and images *)

Lemma Float32Array_new_Normal n :
  0 ≤ n → Float32Array_new n = Normal (replicate (Z.to_nat n) (of_Z 0)).
Proof. intros. unfold Float32Array_new. by rewrite (proj2 (Z.ltb_ge n 0)). Qed.

Lemma Uint8ClampedArray_new_Normal n :
  0 ≤ n → Uint8ClampedArray_new n = Normal (replicate (Z.to_nat n) 0).
Proof. intros. unfold Uint8ClampedArray_new. by rewrite (proj2 (Z.ltb_ge n 0)). Qed.

Lemma ImageData_new_Normal d w h :
  0 < w → 0 < h → Z.of_nat (length d) = 4 * w * h →
  ImageData_new d w h = Normal {| width := w; height := h; data := d |}.
Proof.
  intros Hw Hh Hl. unfold ImageData_new. rewrite Hl.
  replace (4 * w * h) with (w * h * 4) by lia.
  rewrite Z_mod_mult, Z_div_mult by lia.
  replace (w * h) with (h * w) by lia.
  rewrite Z_mod_mult, Z_div_mult by lia.
  rewrite (proj2 (Z.eqb_neq (h * w * 4) 0)) by nia.
  rewrite (proj2 (Z.leb_gt w 0)) by lia.
  rewrite !Z.eqb_refl. done.
Qed.

Lemma ImageData_new_inv d w h img :
  ImageData_new d w h = Normal img →
  img = {| width := w; height := h; data := d |} ∧
  0 < w ∧ 0 < h ∧ Z.of_nat (length d) = 4 * w * h.
Proof.
  unfold ImageData_new. intros Hn.
  destruct (Z.eqb_spec (Z.of_nat (length d)) 0); [done|].
  destruct (Z.eqb_spec (Z.of_nat (length d) `mod` 4) 0) as [H4|]; [|done].
  destruct (Z.leb_spec w 0); [done|].
  destruct (Z.eqb_spec ((Z.of_nat (length d) `div` 4) `mod` w) 0) as [Hm|]; [|done].
  destruct (Z.eqb_spec h ((Z.of_nat (length d) `div` 4) `div` w)) as [Hh|]; [|done].
  simpl in Hn. injection Hn as <-.
  apply Z.div_exact in H4; [|lia]. apply Z.div_exact in Hm; [|lia].
  split; [done|]. split; [lia|]. split; [nia|]. rewrite H4, Hm, <- Hh. lia.
Qed.

Lemma buildKernel_Normal size sigma :
  0 ≤ size → ∃ k, buildKernel size sigma = Normal k ∧ radius k = size / 2.
Proof.
  intros. unfold buildKernel. rewrite Float32Array_new_Normal by done. simpl.
  destruct (for_loop _ _ _ _) as [k s]. eauto.
Qed.

(** ** [gaussianBlur] *)

(** C1: for a pixel buffer and a size above 1, [gaussianBlur] makes two
    passes with the one kernel of [buildKernel]: the first stores, into a
    Float32 buffer [temp] of the length of the data, the sum along the row
    of every sample; the second stores, into 8-bit samples, the sum along
    the column of [temp]. In both, the index of a tap outside the image
    is clamped to the nearest index inside. *)
Theorem gaussianBlur_two_passes (img : ImageData) (size : Z) (sigma : number) :
  well_formed img = true →
  1 < size →
  ∃ (k : Kernel) (temp : Float32Array) (out : ImageData),
    buildKernel size sigma = Normal k ∧
    gaussianBlur img size sigma = Normal out ∧
    width out = width img ∧ height out = height img ∧
    length temp = length (data img) ∧
    length (data out) = length (data img) ∧
    (∀ v, clamp v 0 (width img - 1) =
            if v <? 0 then 0 else if width img - 1 <? v then width img - 1 else v) ∧
    (∀ v, clamp v 0 (height img - 1) =
            if v <? 0 then 0 else if height img - 1 <? v then height img - 1 else v) ∧
    ∀ x y c, 0 ≤ x < width img → 0 ≤ y < height img → 0 ≤ c < 4 →
      array_get temp (sample_index (width img) x y c) =
        Some (Math_fround (row_pass (width img) (data img) (kernel k) (radius k) x y c))
      ∧ array_get (data out) (sample_index (width img) x y c) =
        Some (ToUint8Clamp
                (column_pass (width img) (height img) temp (kernel k) (radius k) x y c)).
Proof.
  intros (Hw & Hh & Hlen & _)%well_formed_spec Hsize.
  destruct (buildKernel_Normal size sigma) as (k & Hk & _); [lia|].
  destruct img as [w h d]; simpl in *.
  set (temp := blur_rows w h d (kernel k) (radius k)
                 (replicate (Z.to_nat (Z.of_nat (length d))) (of_Z 0))).
  set (output := blur_columns w h temp (kernel k) (radius k)
                 (replicate (Z.to_nat (Z.of_nat (length d))) 0)).
  assert (length temp = length d) as Hlt.
  { unfold temp. rewrite blur_rows_write_pixels, length_write_pixels, length_replicate. lia. }
  assert (length output = length d) as Hlo.
  { unfold output. rewrite blur_columns_write_pixels, length_write_pixels, length_replicate. lia. }
  exists k, temp, {| width := w; height := h; data := output |}.
  split; [done|]. split.
  { unfold gaussianBlur. rewrite Hk. destruct k as [kk kr]; simpl.
    rewrite Float32Array_new_Normal, Uint8ClampedArray_new_Normal by lia. simpl.
    fold temp. fold output. apply ImageData_new_Normal; [done..|]. by rewrite Hlo. }
  simpl. do 4 (split; [done|]).
  split; [intros; apply clamp_spec; lia|]. split; [intros; apply clamp_spec; lia|].
  intros x y c Hx Hy Hc. split.
  - unfold temp. rewrite blur_rows_write_pixels.
    apply (write_pixels_get w h); [rewrite length_replicate; lia|done..].
  - unfold output. rewrite blur_columns_write_pixels.
    apply (write_pixels_get w h); [rewrite length_replicate; lia|done..].
Qed.

(** ** [sharpenImage] *)

Lemma sample_index_range w h x y c :
  0 ≤ x < w → 0 ≤ y < h → 0 ≤ c < 4 →
  0 ≤ sample_index w x y c < 4 * w * h.
Proof. unfold sample_index. nia. Qed.

Lemma array_get_lt {A} (a : list A) i :
  0 ≤ i < Z.of_nat (length a) → ∃ v, array_get a i = Some v ∧ v ∈ a.
Proof.
  intros Hi. unfold array_get. rewrite (proj2 (Z.ltb_ge i 0)) by lia.
  destruct (lookup_lt_is_Some_2 a (Z.to_nat i)) as [v Hv]; [lia|].
  exists v. split; [done|]. by eapply list_elem_of_lookup_2.
Qed.

Lemma sharpen_new_Normal img amount :
  well_formed img = true →
  sharpen_new img amount =
    Normal {| width := width img; height := height img;
              data := write_pixels (width img) (height img)
                        (sharpen_sample (width img) (height img) (data img) amount)
                        (replicate (length (data img)) 0) |}.
Proof.
  intros (Hw & Hh & Hlen & _)%well_formed_spec.
  destruct img as [w h d]; simpl in *. unfold sharpen_new.
  rewrite Uint8ClampedArray_new_Normal by lia. simpl.
  rewrite sharpen_pixels_write_pixels, Nat2Z.id.
  apply ImageData_new_Normal; [done..|].
  rewrite length_write_pixels, length_replicate. done.
Qed.

Context `{L : !JSNumberLaws}.

(** C2: for a pixel buffer and an amount above 0, every color sample of
    the result of [sharpenImage] is
    [center * (1 + amount * 4) - amount * (left + right + top + bottom)],
    the four neighbors taken at clamped positions, passed to [Math.round],
    clamped between 0 and 255 and stored; the stored sample is in
    [0, 255]. *)
Theorem sharpenImage_formula (img : ImageData) (amount : number) :
  well_formed img = true →
  num_gt amount (of_Z 0) = true →
  ∃ out : ImageData,
    sharpenImage img amount = Normal out ∧
    width out = width img ∧ height out = height img ∧
    length (data out) = length (data img) ∧
    (∀ v, clamp v 0 (width img - 1) =
            if v <? 0 then 0 else if width img - 1 <? v then width img - 1 else v) ∧
    (∀ v, clamp v 0 (height img - 1) =
            if v <? 0 then 0 else if height img - 1 <? v then height img - 1 else v) ∧
    ∀ x y c, 0 ≤ x < width img → 0 ≤ y < height img → 0 ≤ c < 3 →
      ∃ v : Z,
        array_get (data out) (sample_index (width img) x y c) = Some v ∧
        v = ToUint8Clamp
              (clamp_num
                 (Math_round (sharpened (width img) (height img) (data img) amount x y c))
                 (of_Z 0) (of_Z 255)) ∧
        0 ≤ v ≤ 255.
Proof.
  intros Hwf Hgt. pose proof Hwf as (Hw & Hh & Hlen & _)%well_formed_spec.
  eexists. split.
  { unfold sharpenImage. rewrite (num_gt_not_le _ Hgt). by apply sharpen_new_Normal. }
  simpl. do 2 (split; [done|]).
  split; [by rewrite length_write_pixels, length_replicate|].
  split; [intros; apply clamp_spec; lia|]. split; [intros; apply clamp_spec; lia|].
  intros x y c Hx Hy Hc. eexists. split.
  - apply (write_pixels_get (width img) (height img)); [|done|done|lia].
    rewrite length_replicate. lia.
  - unfold sharpen_sample. rewrite (proj2 (Z.eqb_neq c 3)) by lia.
    split; [done|]. apply ToUint8Clamp_range.
Qed.

(** C6: for a pixel buffer and any amount, the alpha sample of every pixel
    of the result of [sharpenImage] is the alpha sample of the input. *)
Theorem sharpenImage_alpha (img : ImageData) (amount : number) :
  well_formed img = true →
  ∃ out : ImageData,
    sharpenImage img amount = Normal out ∧
    width out = width img ∧ height out = height img ∧
    length (data out) = length (data img) ∧
    ∀ x y, 0 ≤ x < width img → 0 ≤ y < height img →
      array_get (data out) (sample_index (width img) x y 3) =
      array_get (data img) (sample_index (width img) x y 3).
Proof.
  intros Hwf. pose proof Hwf as (Hw & Hh & Hlen & Hb)%well_formed_spec.
  unfold sharpenImage. destruct (num_le amount (of_Z 0)); [by eauto 10|].
  eexists. split; [by apply sharpen_new_Normal|].
  simpl. do 2 (split; [done|]).
  split; [by rewrite length_write_pixels, length_replicate|].
  intros x y Hx Hy.
  rewrite (write_pixels_get (width img) (height img)); [|rewrite length_replicate; lia|done|done|lia].
  unfold sharpen_sample. simpl.
  destruct (array_get_lt (data img) (sample_index (width img) x y 3)) as (b & Hg & Hin).
  { rewrite Hlen. apply sample_index_range; lia. }
  unfold u8_read. rewrite Hg. simpl.
  rewrite ToUint8Clamp_of_Z; [done|].
  rewrite Forall_forall in Hb. by apply Hb.
Qed.

(** ** What a stage returns *)

Lemma Forall_array_set {A} (P : A → Prop) (a : list A) i v :
  Forall P a → P v → Forall P (array_set a i v).
Proof.
  intros Ha Hv. unfold array_set. destruct (i <? 0); [done|].
  by apply Forall_insert.
Qed.

Lemma Forall_write_pixels {A} (P : A → Prop) w h (f : Z → Z → Z → A) out :
  (∀ x y c, P (f x y c)) → Forall P out → Forall P (write_pixels w h f out).
Proof.
  intros Hf Hout. unfold write_pixels.
  destruct (decide (0 ≤ h)); [|by rewrite for_loop_nil by lia].
  apply (for_loop_ind (λ _ o, Forall P o)); [done..|].
  intros y o _ Ho.
  destruct (decide (0 ≤ w)); [|by rewrite for_loop_nil by lia].
  apply (for_loop_ind (λ _ o, Forall P o)); [done..|].
  intros x o' _ Ho'. unfold set4. by repeat apply Forall_array_set.
Qed.

Lemma Forall_replicate_0 n : Forall (λ b, 0 ≤ b ≤ 255) (replicate n 0).
Proof. apply Forall_replicate. lia. Qed.

(** A stage that returns has the dimensions of its input, which are
    those of a pixel buffer, and samples in [0, 255]. *)
Lemma gaussianBlur_inv img size sigma out :
  gaussianBlur img size sigma = Normal out →
  well_formed out = true ∧ width out = width img ∧ height out = height img.
Proof.
  unfold gaussianBlur. destruct img as [w h d].
  destruct (buildKernel size sigma) as [[kk kr]|]; [simpl|done].
  unfold Float32Array_new, Uint8ClampedArray_new.
  rewrite (proj2 (Z.ltb_ge (Z.of_nat (length d)) 0)) by lia. simpl.
  intros (-> & Hw & Hh & Hl)%ImageData_new_inv.
  split; [|done]. apply well_formed_spec. simpl. do 3 (split; [done|]).
  rewrite blur_columns_write_pixels. apply Forall_write_pixels.
  - intros. apply ToUint8Clamp_range.
  - apply Forall_replicate_0.
Qed.

Lemma sharpen_new_inv img amount out :
  sharpen_new img amount = Normal out →
  well_formed out = true ∧ width out = width img ∧ height out = height img.
Proof.
  unfold sharpen_new. destruct img as [w h d].
  unfold Uint8ClampedArray_new.
  rewrite (proj2 (Z.ltb_ge (Z.of_nat (length d)) 0)) by lia. simpl.
  intros (-> & Hw & Hh & Hl)%ImageData_new_inv.
  split; [|done]. apply well_formed_spec. simpl. do 3 (split; [done|]).
  rewrite sharpen_pixels_write_pixels. apply Forall_write_pixels.
  - intros. unfold sharpen_sample. case_match; apply ToUint8Clamp_range.
  - apply Forall_replicate_0.
Qed.

Lemma gaussianBlur_Normal img size sigma :
  well_formed img = true → 0 ≤ size →
  ∃ out, gaussianBlur img size sigma = Normal out.
Proof.
  intros (Hw & Hh & Hlen & _)%well_formed_spec Hsize.
  destruct (buildKernel_Normal size sigma) as (k & Hk & _); [lia|].
  destruct img as [w h d]; simpl in *. unfold gaussianBlur. rewrite Hk.
  destruct k as [kk kr]; simpl.
  rewrite Float32Array_new_Normal, Uint8ClampedArray_new_Normal by lia. simpl.
  eexists. apply ImageData_new_Normal; [done..|].
  rewrite blur_columns_write_pixels, length_write_pixels, length_replicate. lia.
Qed.

(** ** Objects *)

Lemma alloc_fresh (h : store) img h' r :
  alloc h img = (h', r) →
  ∃ l, r = Some l ∧ h !! l = None ∧ h' = <[l := img]> h.
Proof.
  unfold alloc. intros [= <- <-]. eexists. split; [done|]. split; [|done].
  apply not_elem_of_dom. apply is_fresh.
Qed.

(** C7, as the code has it: a stage leaves every object of the store as
    it was, its input included. [gaussianBlur] returns a new object;
    [sharpenImage] returns a new object when [amount <= 0] is false, and
    its input itself, with no object made, when [amount <= 0]. On a pixel
    buffer both return (the blur for a size that is not negative). *)
Theorem stages_keep_input (h : store) (l : loc) (img : ImageData)
    (size : Z) (sigma amount : number) :
  h !! l = Some img →
  (well_formed img = true → 0 ≤ size →
     ∃ h' r, gaussianBlur_ref h (Some l) size sigma = Normal (h', r)) ∧
  (∀ h' r, gaussianBlur_ref h (Some l) size sigma = Normal (h', r) →
     h ⊆ h' ∧ h' !! l = Some img ∧
     ∃ l', r = Some l' ∧ l' ≠ l ∧ h !! l' = None ∧ is_Some (h' !! l')) ∧
  (well_formed img = true →
     ∃ h' r, sharpenImage_ref h (Some l) amount = Normal (h', r)) ∧
  (∀ h' r, sharpenImage_ref h (Some l) amount = Normal (h', r) →
     h ⊆ h' ∧ h' !! l = Some img ∧
     if num_le amount (of_Z 0) then r = Some l ∧ h' = h
     else ∃ l', r = Some l' ∧ l' ≠ l ∧ h !! l' = None ∧ is_Some (h' !! l')).
Proof.
  intros Hl.
  assert (∀ out h' r, alloc h out = (h', r) →
    h ⊆ h' ∧ h' !! l = Some img ∧
    ∃ l', r = Some l' ∧ l' ≠ l ∧ h !! l' = None ∧ is_Some (h' !! l')) as Halloc.
  { intros out h' r (l' & -> & Hfresh & ->)%alloc_fresh.
    assert (l' ≠ l) by congruence.
    split; [by apply insert_subseteq|].
    split; [by rewrite lookup_insert_ne|].
    exists l'. by rewrite lookup_insert_eq. }
  split; [|split; [|split]].
  - intros Hwf Hsize. unfold gaussianBlur_ref. simpl. rewrite Hl. simpl.
    destruct (gaussianBlur_Normal img size sigma) as [out ->]; [done..|].
    simpl. destruct (alloc h out). eauto.
  - intros h' r. unfold gaussianBlur_ref. simpl. rewrite Hl. simpl.
    destruct (gaussianBlur img size sigma) as [out|]; [simpl|done].
    intros Ha. apply (Halloc out). congruence.
  - intros Hwf. unfold sharpenImage_ref.
    destruct (num_le amount (of_Z 0)); [by eauto|].
    simpl. rewrite Hl. simpl. rewrite sharpen_new_Normal by done. simpl.
    destruct (alloc h _). eauto.
  - intros h' r. unfold sharpenImage_ref.
    destruct (num_le amount (of_Z 0)).
    + intros [= <- <-]. done.
    + simpl. rewrite Hl. simpl.
      destruct (sharpen_new img amount) as [out|]; [simpl|done].
      intros Ha. apply (Halloc out). congruence.
Qed.

(** ** [runFilter] *)

Lemma alloc_lookup (h : store) img h' r :
  alloc h img = (h', r) →
  h ⊆ h' ∧ ∃ l, r = Some l ∧ h !! l = None ∧ h' !! l = Some img.
Proof.
  intros (l & -> & Hfresh & ->)%alloc_fresh.
  split; [by apply insert_subseteq|]. exists l. by rewrite lookup_insert_eq.
Qed.

(** The [try] block computes [FilterPipeline_apply], on objects. *)
Lemma filter_try_Normal (h : store) (o : loc) (img out : ImageData)
    (size : Z) (sharpen : number) :
  h !! o = Some img →
  ((size <=? 1) && num_le sharpen (of_Z 0) = false) →
  FilterPipeline_apply img size sharpen = Normal out →
  ∃ h' l,
    filter_try h (Some o)
      {| cb_size := size; cb_sigma := formatKernel size; cb_sharpen := sharpen |}
      = Normal (h', Some l, out)
    ∧ h ⊆ h' ∧ h' !! l = Some out.
Proof.
  intros Ho Hslow. unfold FilterPipeline_apply, filter_try. rewrite Hslow. simpl.
  rewrite Z.gtb_ltb. fold (formatKernel size). intros Hout.
  assert (∃ h1 l1 blurred,
    (if 1 <? size then gaussianBlur_ref h (Some o) size (formatKernel size)
     else Normal (h, Some o)) = Normal (h1, Some l1) ∧
    (if 1 <? size then gaussianBlur img size (formatKernel size)
     else Normal img) = Normal blurred ∧
    h ⊆ h1 ∧ h1 !! l1 = Some blurred) as (h1 & l1 & blurred & -> & Hb & Hsub & Hl1).
  { destruct (1 <? size).
    - unfold gaussianBlur_ref. simpl. rewrite Ho. simpl.
      destruct (gaussianBlur img size (formatKernel size)) as [b|]; [simpl|done].
      destruct (alloc h b) as [h1 r] eqn:Ha.
      apply alloc_lookup in Ha as (? & l1 & -> & _ & ?). eauto 10.
    - eauto 10. }
  rewrite Hb in Hout. simpl in Hout. simpl.
  destruct (num_gt sharpen (of_Z 0)) eqn:Hgt.
  - unfold sharpenImage in Hout. unfold sharpenImage_ref.
    rewrite (num_gt_not_le _ Hgt) in *. simpl. rewrite Hl1. simpl.
    rewrite Hout. cbn.
    destruct (alloc h1 out) as [h2 r] eqn:Ha.
    apply alloc_lookup in Ha as (? & l2 & -> & _ & Hl2).
    simpl. rewrite Hl2. simpl. exists h2, l2. split; [done|].
    split; [by etrans|done].
  - injection Hout as <-. simpl. rewrite Hl1. simpl. eauto.
Qed.

Lemma FilterPipeline_apply_Normal img size sharpen :
  well_formed img = true →
  ∃ out, FilterPipeline_apply img size sharpen = Normal out ∧ well_formed out = true.
Proof.
  intros Hwf. unfold FilterPipeline_apply.
  destruct ((size <=? 1) && num_le sharpen (of_Z 0)); [by eauto|].
  assert (∃ blurred,
    (if 1 <? size
     then gaussianBlur img size (Math_max lit_0_15 (num_div (of_Z size) (of_Z 6)))
     else Normal img) = Normal blurred ∧ well_formed blurred = true)
    as (blurred & -> & Hwb).
  { destruct (Z.ltb_spec 1 size); [|by eauto].
    destruct (gaussianBlur_Normal img size
      (Math_max lit_0_15 (num_div (of_Z size) (of_Z 6)))) as [b Hb]; [done|lia|].
    exists b. split; [done|]. by apply gaussianBlur_inv in Hb as [? _]. }
  simpl. destruct (num_gt sharpen (of_Z 0)); [|by eauto].
  unfold sharpenImage. destruct (num_le sharpen (of_Z 0)); [by eauto|].
  rewrite sharpen_new_Normal by done. eexists. split; [done|].
  eapply sharpen_new_inv. by apply sharpen_new_Normal.
Qed.

(** C4: on a page that holds a pixel buffer and is not filtering,
    [runFilter] and the animation frame that follows show and keep as
    current the result of the pipeline of the specification. When
    [kernelSize <= 1] and [sharpenAmount <= 0] this is the original object
    itself: no callback is queued and the store is left as it was. *)
Theorem runFilter_pipeline (s : page) (o : loc) (img : ImageData) :
  originalImageData s = Some o →
  objects s !! o = Some img →
  well_formed img = true →
  isProcessing s = false →
  animationFrames s = [] →
  let size := kernelSize_value s in
  let sharpen := sharpenAmount_value s in
  let s' := animation_frame (runFilter s) in
  ∃ (out : ImageData) (l : loc),
    FilterPipeline_apply img size sharpen = Normal out ∧
    currentImageData s' = Some l ∧
    objects s' !! l = Some out ∧
    outputCanvas s' = Some out ∧
    isProcessing s' = false ∧
    objects s ⊆ objects s' ∧
    (size ≤ 1 → num_le sharpen (of_Z 0) = true →
       out = img ∧ l = o ∧ objects s' = objects s ∧
       animationFrames (runFilter s) = []).
Proof.
  intros Ho Himg Hwf Hidle Hq size sharpen s'.
  destruct (FilterPipeline_apply_Normal img size sharpen Hwf) as (out & Hout & _).
  exists out. subst s'. unfold runFilter. rewrite Ho, Hidle.
  fold size. fold sharpen.
  destruct ((size <=? 1) && num_le sharpen (of_Z 0)) eqn:Hfast.
  - exists o.
    assert (out = img) as ->.
    { unfold FilterPipeline_apply in Hout. rewrite Hfast in Hout. congruence. }
    unfold animation_frame. simpl. rewrite Hq. simpl. rewrite Himg. done.
  - destruct (filter_try_Normal (objects s) o img out size sharpen)
      as (h' & l & Htry & Hsub & Hl); [done..|].
    exists l. unfold animation_frame. simpl. rewrite Hq. simpl.
    unfold filter_frame. simpl. rewrite Htry. simpl.
    do 6 (split; [done|]).
    intros Hs Hle. apply andb_false_iff in Hfast as [Hf|Hf]; [|congruence].
    apply Z.leb_gt in Hf. lia.
Qed.

Lemma blur_step_inv h0 o size sigma h1 r1 :
  (if size >? 1 then gaussianBlur_ref h0 o size sigma else Normal (h0, o))
    = Normal (h1, r1) →
  passed_or_new h0 o h1 r1.
Proof.
  destruct (size >? 1).
  - unfold gaussianBlur_ref.
    destruct (deref h0 o) as [img|]; [simpl|done].
    destruct (gaussianBlur img size sigma) as [out|] eqn:Hb; [simpl|done].
    intros Ha. assert (alloc h0 out = (h1, r1)) as Ha' by congruence.
    apply alloc_lookup in Ha' as (? & l & -> & ? & ?).
    apply gaussianBlur_inv in Hb as [? _]. right. eauto 10.
  - intros [= <- <-]. by left.
Qed.

Lemma sharpen_step_inv h1 r1 amount h2 r2 :
  (if num_gt amount (of_Z 0) then sharpenImage_ref h1 r1 amount else Normal (h1, r1))
    = Normal (h2, r2) →
  passed_or_new h1 r1 h2 r2.
Proof.
  destruct (num_gt amount (of_Z 0)).
  - unfold sharpenImage_ref. destruct (num_le amount (of_Z 0)).
    + intros [= <- <-]. by left.
    + destruct (deref h1 r1) as [img|]; [simpl|done].
      destruct (sharpen_new img amount) as [out|] eqn:Hs; [simpl|done].
      intros Ha. assert (alloc h1 out = (h2, r2)) as Ha' by congruence.
      apply alloc_lookup in Ha' as (? & l & -> & ? & ?).
      apply sharpen_new_inv in Hs as [? _]. right. eauto 10.
  - intros [= <- <-]. by left.
Qed.

(** C8: the callback of [runFilter] always ends with [isProcessing]
    reset. If its [try] block throws, the page reports the failure and
    the canvas, the current image and the store are as before. If not,
    the image shown is a whole object of the store: the original
    itself, or a new pixel buffer. *)
Theorem filter_frame_recovers (cb : frame_callback) (s : page) :
  let s' := filter_frame cb s in
  isProcessing s' = false ∧
  originalImageData s' = originalImageData s ∧
  match filter_try (objects s) (originalImageData s) cb with
  | Throw _ =>
      status s' = "Filtering failed. Try smaller settings." ∧
      outputCanvas s' = outputCanvas s ∧
      currentImageData s' = currentImageData s ∧
      objects s' = objects s
  | Normal (h, filtered, painted) =>
      status s' = "Filter applied." ∧
      outputCanvas s' = Some painted ∧
      currentImageData s' = filtered ∧
      objects s ⊆ objects s' ∧
      ∃ l, filtered = Some l ∧ objects s' !! l = Some painted ∧
        (filtered = originalImageData s ∨
         (objects s !! l = None ∧ well_formed painted = true))
  end.
Proof.
  intros s'. subst s'. unfold filter_frame.
  destruct (filter_try _ _ cb) as [[[h filtered] painted]|e] eqn:Htry; [|done].
  simpl. do 5 (split; [done|]).
  revert Htry. unfold filter_try.
  destruct (if cb_size cb >? 1 then _ else _) as [[h1 r1]|] eqn:Hb; [simpl|done].
  destruct (if num_gt _ _ then _ else _) as [[h2 r2]|] eqn:Hs; [simpl|done].
  unfold putImageData, deref.
  destruct r2 as [l|]; [|done]. destruct (h2 !! l) as [p|] eqn:Hp; [simpl|done].
  intros [= <- <- <-].
  apply blur_step_inv in Hb. apply sharpen_step_inv in Hs.
  assert (objects s ⊆ h1 ∧
    (r1 = originalImageData s ∨
     ∃ l1, r1 = Some l1 ∧ objects s !! l1 = None ∧
       ∀ out, h1 !! l1 = Some out → well_formed out = true)) as [Hsub1 Hr1].
  { destruct Hb as [[? ?]|(l1 & out1 & ? & ? & ? & ? & ?)]; simplify_eq.
    - split; [done|]. by left.
    - split; [done|]. right. exists l1. split; [done|]. split; [done|].
      intros out ?. by simplify_eq. }
  destruct Hs as [[? ?]|(l2 & out2 & ? & Hsub2 & Hf2 & Ho2 & Hwf2)]; simplify_eq.
  - split; [done|]. exists l. do 2 (split; [done|]).
    destruct Hr1 as [?|(l1 & ? & ? & Hwf1)]; [by left|]. simplify_eq.
    right. split; [done|]. by apply Hwf1.
  - split; [by etrans|]. exists l2. do 2 (split; [done|]). right.
    split; [|done].
    destruct (objects s !! l2) eqn:Hl0; [|done].
    eapply lookup_weaken in Hl0; [|exact Hsub1]. congruence.
Qed.

(** ** [buildKernel] *)

(** The weights of [buildKernel], for any semantics of numbers: the
    array has [size] elements, and the element at [j] is the value at
    offset [j - radius], stored, divided by the sum of the values at all
    the offsets from [- radius] to [radius], and stored again. *)
Lemma buildKernel_weights (size : Z) (sigma : number) :
  0 ≤ size →
  let r := size / 2 in
  let sigma2 := num_mul sigma sigma in
  ∃ k : Kernel,
    buildKernel size sigma = Normal k ∧
    radius k = r ∧
    length (kernel k) = Z.to_nat size ∧
    ∀ j, 0 ≤ j < size →
      array_get (kernel k) j =
        Some (Math_fround (num_div (Math_fround (gaussian sigma2 (j - r)))
                             (kernel_total sigma2 r))).
Proof.
  intros Hsize r sigma2. unfold buildKernel.
  rewrite Float32Array_new_Normal by done. simpl. fold r. fold sigma2.
  assert (0 ≤ r) as Hr by (apply Z.div_pos; lia).
  assert (size ≤ 2 * r + 1) as Hsr.
  { unfold r. pose proof (Z.div_mod size 2). pose proof (Z.mod_pos_bound size 2). lia. }
  pose (Inv1 := λ (i : Z) (st : Float32Array * number),
    length st.1 = Z.to_nat size ∧
    st.2 = for_loop (- r) i (λ i sum, num_add sum (gaussian sigma2 i)) (of_Z 0) ∧
    ∀ j, 0 ≤ j < size →
      array_get st.1 j =
        Some (if j <? i + r then Math_fround (gaussian sigma2 (j - r)) else of_Z 0)).
  match goal with |- context [for_loop (- r) (r + 1) ?body ?init] =>
    assert (Inv1 (r + 1) (for_loop (- r) (r + 1) body init)) as HI1 end.
  { apply (for_loop_ind Inv1); [lia| |].
    - unfold Inv1; simpl.
      split; [by rewrite length_replicate|]. split; [by rewrite for_loop_nil|].
      intros j Hj. rewrite (proj2 (Z.ltb_ge j (- r + r))) by lia.
      unfold array_get. rewrite (proj2 (Z.ltb_ge j 0)) by lia.
      rewrite lookup_replicate_2 by lia. done.
    - intros i [ker sum] Hi (Hlen & Hsum & Hget). unfold Inv1, f32_set. simpl in *.
      split; [by rewrite length_array_set|].
      split; [rewrite for_loop_snoc by lia; by rewrite Hsum|].
      intros j Hj. rewrite array_get_set, Hget by done.
      case_decide as Hd.
      + destruct Hd as [-> _]. rewrite (proj2 (Z.ltb_lt _ _)) by lia.
        do 3 f_equal. lia.
      + destruct (Z.ltb_spec j (i + r)), (Z.ltb_spec j (i + 1 + r)); try done; lia. }
  destruct (for_loop (- r) (r + 1) _ _) as [ker sum].
  destruct HI1 as (Hlen1 & Hsum & Hget1). simpl in *.
  fold (kernel_total sigma2 r) in Hsum. subst sum.
  pose (Inv2 := λ (i : Z) (ker' : Float32Array),
    length ker' = Z.to_nat size ∧
    ∀ j, 0 ≤ j < size →
      array_get ker' j =
        Some (if j <? i
              then Math_fround (num_div (Math_fround (gaussian sigma2 (j - r)))
                                  (kernel_total sigma2 r))
              else Math_fround (gaussian sigma2 (j - r)))).
  match goal with |- context [for_loop 0 size ?body ker] =>
    assert (Inv2 size (for_loop 0 size body ker)) as [Hlen2 Hget2] end.
  { apply (for_loop_ind Inv2); [lia| |].
    - split; [done|]. intros j Hj. rewrite Hget1 by done.
      rewrite (proj2 (Z.ltb_lt j (r + 1 + r))) by lia.
      by rewrite (proj2 (Z.ltb_ge j 0)) by lia.
    - intros i ker' Hi (Hlen & Hget). unfold Inv2, f32_set.
      split; [by rewrite length_array_set|].
      intros j Hj. unfold f32_read.
      rewrite array_get_set, !Hget by lia.
      rewrite Z.ltb_irrefl. simpl.
      case_decide as Hd.
      + destruct Hd as [-> _]. by rewrite (proj2 (Z.ltb_lt _ _)) by lia.
      + destruct (Z.ltb_spec j i), (Z.ltb_spec j (i + 1)); try done; lia. }
  eexists. split; [done|]. simpl. do 2 (split; [done|]).
  intros j Hj. rewrite Hget2 by done. by rewrite (proj2 (Z.ltb_lt _ _)) by lia.
Qed.

End FilterProofs.

(** ** The laws hold for binary64 numbers *)

Lemma F64_round_half_even_range m e :
  0 ≤ m →
  (if 0 <=? e then 255 <=? m * 2 ^ e else 255 * 2 ^ (- e) <=? m) = false →
  0 ≤ F64.round_half_even m e ≤ 255.
Proof.
  intros Hm. unfold F64.round_half_even. destruct (Z.leb_spec 0 e).
  - intros ?%Z.leb_gt. assert (0 < 2 ^ e) by (apply Z.pow_pos_nonneg; lia). nia.
  - intros Hlt%Z.leb_gt.
    assert (0 < 2 ^ (- e)) as Hd by (apply Z.pow_pos_nonneg; lia).
    pose proof (Z.div_pos m (2 ^ (- e)) Hm Hd).
    assert (m `div` 2 ^ (- e) < 255) by (apply Z.div_lt_upper_bound; lia).
    destruct (_ ?= _); [destruct (Z.even _)|..]; lia.
Qed.

Lemma F64_to_uint8_clamp_range x : 0 ≤ F64.to_uint8_clamp x ≤ 255.
Proof.
  unfold F64.to_uint8_clamp.
  destruct (Prim2SF x) as [sx | [] | | [] m e]; try lia.
  destruct (if 0 <=? e then _ else _) eqn:Hc; [lia|].
  by apply F64_round_half_even_range.
Qed.

Lemma F64_to_uint8_clamp_of_Z b :
  0 ≤ b ≤ 255 → F64.to_uint8_clamp (F64.of_Z b) = b.
Proof.
  intros Hb.
  assert (forallb (λ b, F64.to_uint8_clamp (F64.of_Z b) =? b) (seqZ 0 256) = true)
    as Hall by (vm_compute; reflexivity).
  rewrite forallb_forall in Hall. apply Z.eqb_eq, Hall.
  apply list_elem_of_In, elem_of_seqZ. lia.
Qed.

Lemma F64_gt_not_le a : (0 <? a)%float = true → (a <=? 0)%float = false.
Proof.
  rewrite ltb_spec, leb_spec.
  change (Prim2SF 0) with (S754_zero false).
  destruct (Prim2SF a) as [[] | [] | | [] m e]; done.
Qed.

Lemma Float64_laws (approx : float → float) : @JSNumberLaws (Float64 approx).
Proof.
  split.
  - apply F64_gt_not_le.
  - apply F64_to_uint8_clamp_of_Z.
  - apply F64_to_uint8_clamp_range.
Qed.

(** ** The laws hold for exact numbers *)

Lemma Exact_floor_spec r : (IZR (Exact.floor r) <= r < IZR (Exact.floor r) + 1)%R.
Proof.
  unfold Exact.floor. rewrite minus_IZR. destruct (archimed r). lra.
Qed.

Lemma Exact_floor_unique r (z : Z) : (IZR z <= r < IZR z + 1)%R → Exact.floor r = z.
Proof.
  intros Hz. pose proof (Exact_floor_spec r) as Hf.
  assert (Exact.floor r < z + 1) by (apply lt_IZR; rewrite plus_IZR; lra).
  assert (z < Exact.floor r + 1) by (apply lt_IZR; rewrite plus_IZR; lra).
  lia.
Qed.

Lemma Exact_floor_IZR z : Exact.floor (IZR z) = z.
Proof. apply Exact_floor_unique. lra. Qed.


Lemma Exact_to_uint8_clamp_of_Z b :
  0 ≤ b ≤ 255 → Exact.to_uint8_clamp (Xreal (IZR b)) = b.
Proof.
  intros Hb. simpl.
  destruct (Rle_dec (IZR b) 0) as [Hle|_].
  { apply le_IZR in Hle. lia. }
  destruct (Rle_dec 255 (IZR b)) as [Hle|_].
  { apply le_IZR in Hle. lia. }
  rewrite Exact_floor_IZR.
  destruct (Rlt_dec (IZR b + / 2) (IZR b)); [lra|].
  destruct (Rlt_dec (IZR b) (IZR b + / 2)); [done|lra].
Qed.


(** ** The kernel over exact numbers *)

Lemma Exact_gaussian (s : R) (i : Z) :
  s ≠ 0%R →
  gaussian (N:=ExactNumber) (@num_mul ExactNumber (Xreal s) (Xreal s)) i = Xreal (gaussian_R s i).
Proof.
  intros Hs. unfold gaussian, gaussian_R. simpl.
  destruct (Req_dec_T (2 * (s * s)) 0) as [H0|_]; [|done].
  exfalso. assert (0 < s * s)%R by nra. lra.
Qed.

Lemma Exact_sum_loop (f : Z → R) lo hi (a : R) :
  for_loop lo hi (λ i sum, @num_add ExactNumber sum (Xreal (f i))) (Xreal a) =
  Xreal (foldl Rplus a (f <$> seqZ lo (hi - lo))).
Proof.
  unfold for_loop. generalize (seqZ lo (hi - lo)) as l. intros l. revert a.
  induction l as [|i l IH]; intros a; [done|]. simpl. by rewrite IH.
Qed.

Lemma Exact_kernel_total (s : R) (r : Z) :
  s ≠ 0%R →
  kernel_total (N:=ExactNumber) (@num_mul ExactNumber (Xreal s) (Xreal s)) r =
  Xreal (Rsum (gaussian_R s <$> seqZ (- r) (2 * r + 1))).
Proof.
  intros Hs. unfold kernel_total, Rsum.
  replace (2 * r + 1) with (r + 1 - - r) by lia.
  rewrite <- Exact_sum_loop. apply for_loop_ext. intros i sum _.
  by rewrite Exact_gaussian.
Qed.

Lemma gaussian_R_pos s i : (0 < gaussian_R s i)%R.
Proof. apply exp_pos. Qed.

Lemma foldl_Rplus_le (f : Z → R) (l : list Z) (a : R) :
  (∀ i, 0 < f i)%R → (a <= foldl Rplus a (f <$> l))%R.
Proof.
  intros Hf. revert a. induction l as [|i l IH]; intros a; simpl; [lra|].
  eapply Rle_trans; [|apply IH]. specialize (Hf i). lra.
Qed.

Lemma Rsum_pos (f : Z → R) (l : list Z) :
  (∀ i, 0 < f i)%R → l ≠ [] → (0 < Rsum (f <$> l))%R.
Proof.
  intros Hf Hl. destruct l as [|i l]; [done|]. unfold Rsum. simpl.
  eapply Rlt_le_trans; [|by apply foldl_Rplus_le]. specialize (Hf i). lra.
Qed.

Lemma foldl_Rplus_div (f : Z → R) (c : R) (l : list Z) (a : R) :
  c ≠ 0%R →
  foldl Rplus (a / c)%R ((λ i, f i / c)%R <$> l) = (foldl Rplus a (f <$> l) / c)%R.
Proof.
  intros Hc. revert a. induction l as [|i l IH]; intros a; simpl; [done|].
  rewrite <- IH. f_equal. by field.
Qed.

Lemma Rsum_div (f : Z → R) (c : R) (l : list Z) :
  c ≠ 0%R → Rsum ((λ i, f i / c)%R <$> l) = (Rsum (f <$> l) / c)%R.
Proof.
  intros Hc. unfold Rsum. rewrite <- foldl_Rplus_div by done.
  f_equal. by field.
Qed.


(** The kernel over exact numbers: the values at the offsets that fit in
    the array, each divided by the sum of the values at all the offsets
    from [- radius] to [radius]. *)
Lemma Exact_buildKernel (size : Z) (s : R) :
  0 ≤ size → s ≠ 0%R →
  let r := size / 2 in
  let total := Rsum (gaussian_R s <$> seqZ (- r) (2 * r + 1)) in
  (0 < total)%R ∧
  buildKernel (N:=ExactNumber) size (Xreal s) =
    Normal {| kernel := Xreal <$> ((λ i, gaussian_R s i / total)%R <$> seqZ (- r) size);
              radius := r |}.
Proof.
  intros Hsize Hs r total.
  assert (0 ≤ r) as Hr by (apply Z.div_pos; lia).
  assert (0 < total)%R as Htotal.
  { apply Rsum_pos; [apply gaussian_R_pos|].
    rewrite seqZ_cons by lia. done. }
  split; [done|].
  destruct (buildKernel_weights (N:=ExactNumber) size (Xreal s) Hsize)
    as ([ker rad] & -> & Hrad & Hlen & Hget).
  cbn [kernel radius] in Hrad, Hlen, Hget. subst rad. fold r in Hget. f_equal. f_equal.
  apply list_eq. intros n.
  destruct (decide (Z.of_nat n < size)) as [Hn|Hn].
  - specialize (Hget (Z.of_nat n)). unfold array_get in Hget.
    rewrite (proj2 (Z.ltb_ge (Z.of_nat n) 0)), Nat2Z.id in Hget by lia.
    etrans; [apply Hget; lia|].
    rewrite !list_lookup_fmap, lookup_seqZ_lt by lia.
    rewrite Exact_gaussian, Exact_kernel_total by done. simpl.
    fold total. destruct (Req_dec_T total 0); [lra|].
    do 4 f_equal. lia.
  - rewrite !lookup_ge_None_2; [done| |].
    + rewrite !length_fmap, length_seqZ. lia.
    + lia.
Qed.




(** ** The blur of size 1 over binary64 numbers *)

Lemma F64_zero_cases (q : float) (b : bool) :
  Prim2SF q = S754_zero b → q = (if b then neg_zero else zero).
Proof.
  intros Hq. rewrite <- (SF2Prim_Prim2SF q), Hq. by destruct b.
Qed.

(** The exponent at offset 0 is a zero, and its exponential 1, when
    [2 sigma²] is neither a NaN nor a zero. *)
Lemma F64_exp_offset_0 (approx : float → float) (d : float) :
  is_nan d = false → is_zero d = false →
  F64.exp approx (- F64.of_Z (0 * 0) / d)%float = 1%float.
Proof.
  intros Hnan Hzero.
  assert (∃ b, Prim2SF (- F64.of_Z (0 * 0) / d)%float = S754_zero b) as [b Hb].
  { rewrite div_spec. change (Prim2SF (- F64.of_Z (0 * 0))) with (S754_zero true).
    destruct (Prim2SF d) as [sd | sd | | sd md ed] eqn:Hd.
    - exfalso. rewrite <- (SF2Prim_Prim2SF d), Hd in Hzero.
      destruct sd; vm_compute in Hzero; discriminate.
    - by eexists.
    - exfalso. rewrite <- (SF2Prim_Prim2SF d), Hd in Hnan.
      vm_compute in Hnan. discriminate.
    - by eexists. }
  apply F64_zero_cases in Hb. rewrite Hb. destruct b; reflexivity.
Qed.

Lemma F64_buildKernel_1 (approx : float → float) (sigma : float) :
  is_nan (2 * (sigma * sigma))%float = false →
  is_zero (2 * (sigma * sigma))%float = false →
  buildKernel (N:=Float64 approx) 1 sigma = Normal (@Build_Kernel (Float64 approx) [1%float] 0).
Proof.
  intros Hnan Hzero. unfold buildKernel, for_loop.
  change (1 `div` 2) with 0.
  change (seqZ (- 0) (0 + 1 - - 0)) with [0]. change (seqZ 0 (1 - 0)) with [0].
  simpl. unfold gaussian. simpl.
  change (F64.of_Z 2) with 2%float.
  rewrite F64_exp_offset_0 by done. reflexivity.
Qed.

(** With the kernel [[1]] a window is its one sample. *)
Lemma F64_convolve_1 (approx : float → float) (sample : Z → float) :
  convolve (N:=Float64 approx) [1%float] 0 sample = (0 + sample 0%Z * 1)%float.
Proof. reflexivity. Qed.

Lemma F64_sample_kept (b : Z) :
  0 ≤ b ≤ 255 →
  F64.fround (0 + F64.of_Z b * 1)%float = F64.of_Z b ∧
  F64.to_uint8_clamp (0 + F64.of_Z b * 1)%float = b.
Proof.
  intros Hb.
  assert (forallb (λ b,
      Leibniz.eqb (F64.fround (0 + F64.of_Z b * 1)%float) (F64.of_Z b)
      && (F64.to_uint8_clamp (0 + F64.of_Z b * 1)%float =? b)) (seqZ 0 256) = true)
    as Hall by (vm_compute; reflexivity).
  rewrite forallb_forall in Hall. specialize (Hall b).
  rewrite andb_true_iff, Leibniz.eqb_spec, Z.eqb_eq in Hall. apply Hall.
  apply list_elem_of_In, elem_of_seqZ. lia.
Qed.

Lemma sample_index_decompose (w h i : Z) :
  0 < w → 0 ≤ i < 4 * w * h →
  ∃ x y c, 0 ≤ x < w ∧ 0 ≤ y < h ∧ 0 ≤ c < 4 ∧ i = sample_index w x y c.
Proof.
  intros Hw Hi. exists ((i / 4) mod w), ((i / 4) / w), (i mod 4).
  pose proof (Z.div_mod i 4). pose proof (Z.mod_pos_bound i 4).
  pose proof (Z.div_mod (i / 4) w). pose proof (Z.mod_pos_bound (i / 4) w).
  assert (0 ≤ i / 4) by (apply Z.div_pos; lia).
  assert (i / 4 < w * h) by (apply Z.div_lt_upper_bound; lia).
  assert (0 ≤ (i / 4) / w) by (apply Z.div_pos; lia).
  assert ((i / 4) / w < h) by (apply Z.div_lt_upper_bound; lia).
  unfold sample_index. repeat split; try lia.
Qed.

(** Two arrays of [4 * w * h] samples with the same sample at every
    channel of every pixel are equal. *)
Lemma pixel_buffer_ext (w h : Z) (a b : list Z) :
  0 < w →
  Z.of_nat (length a) = 4 * w * h →
  length a = length b →
  (∀ x y c, 0 ≤ x < w → 0 ≤ y < h → 0 ≤ c < 4 →
     array_get a (sample_index w x y c) = array_get b (sample_index w x y c)) →
  a = b.
Proof.
  intros Hw Hlen Hab Hsame. apply list_eq. intros n.
  destruct (decide (Z.of_nat n < 4 * w * h)) as [Hn|Hn].
  - destruct (sample_index_decompose w h (Z.of_nat n)) as (x & y & c & Hx & Hy & Hc & Hi);
      [lia..|].
    specialize (Hsame x y c Hx Hy Hc). rewrite <- Hi in Hsame.
    unfold array_get in Hsame.
    by rewrite (proj2 (Z.ltb_ge (Z.of_nat n) 0)), Nat2Z.id in Hsame by lia.
  - rewrite !lookup_ge_None_2; [done|lia..].
Qed.

(** With the kernel [[1]] and samples in [0, 255] the two passes keep
    every sample. *)
Lemma F64_gaussianBlur_size_1 (approx : float → float) (img : ImageData) (sigma : float) :
  well_formed img = true →
  is_nan (2 * (sigma * sigma))%float = false →
  is_zero (2 * (sigma * sigma))%float = false →
  ∃ out : ImageData,
    gaussianBlur (N:=Float64 approx) img 1 sigma = Normal out ∧
    width out = width img ∧ height out = height img ∧
    data out = data img.
Proof.
  intros Hwf Hnan Hzero. pose proof (F64_buildKernel_1 approx sigma Hnan Hzero) as Hk.
  pose proof Hwf as (Hw & Hh & Hlen & Hb)%well_formed_spec.
  destruct img as [w h d]; cbn [width height data] in *.
  unfold gaussianBlur. rewrite Hk. simpl.
  rewrite Float32Array_new_Normal, Uint8ClampedArray_new_Normal by lia. simpl.
  rewrite Nat2Z.id, blur_rows_write_pixels, blur_columns_write_pixels.
  match goal with |- context [column_pass w h ?t] => set (temp := t) end.
  match goal with |- context [ImageData_new ?o] => set (output := o) end.
  assert (length output = length d) as Hlo.
  { unfold output. by rewrite length_write_pixels, length_replicate. }
  exists {| width := w; height := h; data := output |}.
  split; [apply ImageData_new_Normal; [done..|by rewrite Hlo]|].
  simpl. do 2 (split; [done|]).
  assert (∀ x y c, 0 ≤ x < w → 0 ≤ y < h → 0 ≤ c < 4 →
    ∃ b, array_get d (sample_index w x y c) = Some b ∧ 0 ≤ b ≤ 255 ∧
      array_get temp (sample_index w x y c) = Some (F64.of_Z b)) as Htemp.
  { intros x y c Hx Hy Hc.
    destruct (array_get_lt d (sample_index w x y c)) as (b & Hg & Hin).
    { rewrite Hlen. by apply sample_index_range. }
    assert (0 ≤ b ≤ 255) as Hbb by (rewrite Forall_forall in Hb; by apply Hb).
    exists b. do 2 (split; [done|]). unfold temp.
    rewrite (write_pixels_get w h); [|rewrite length_replicate; lia|done..].
    unfold row_pass. rewrite F64_convolve_1.
    rewrite Z.add_0_r, clamp_spec, (proj2 (Z.ltb_ge x 0)),
      (proj2 (Z.ltb_ge (w - 1) x)) by lia.
    unfold u8_read. rewrite Hg. simpl.
    by destruct (F64_sample_kept b Hbb) as [-> _]. }
  apply (pixel_buffer_ext w h); [done|lia|done|].
  intros x y c Hx Hy Hc.
  destruct (Htemp x y c) as (b & Hg & Hbb & Ht); [done..|].
  rewrite Hg. unfold output.
  rewrite (write_pixels_get w h); [|rewrite length_replicate; lia|done..].
  unfold column_pass. rewrite F64_convolve_1.
  rewrite Z.add_0_r, clamp_spec, (proj2 (Z.ltb_ge y 0)),
    (proj2 (Z.ltb_ge (h - 1) y)) by lia.
  unfold f32_read. rewrite Ht. simpl.
  by destruct (F64_sample_kept b Hbb) as [_ ->].
Qed.

(** ** The blur of size 0 or less *)

(** A NaN operand makes a NaN. *)
Lemma F64_mul_nan (x : float) : (x * nan)%float = nan.
Proof.
  rewrite <- (SF2Prim_Prim2SF (x * nan)), mul_spec.
  change (Prim2SF nan) with S754_nan.
  by destruct (Prim2SF x) as [sx | sx | | sx mx ex].
Qed.

Lemma F64_add_nan (x : float) : (x + nan)%float = nan.
Proof.
  rewrite <- (SF2Prim_Prim2SF (x + nan)), add_spec.
  change (Prim2SF nan) with S754_nan.
  by destruct (Prim2SF x) as [sx | sx | | sx mx ex].
Qed.

(** For every semantics of Numbers, the kernel of size 0 has no weight
    and radius 0, and a negative size is a RangeError. *)
Lemma buildKernel_0 `{N : JSNumber} (sigma : number) :
  buildKernel 0 sigma = Normal {| kernel := []; radius := 0 |}.
Proof. reflexivity. Qed.

Lemma gaussianBlur_negative_size `{N : JSNumber} (img : ImageData) (size : Z)
    (sigma : number) :
  size < 0 → gaussianBlur img size sigma = Throw RangeError.
Proof.
  intros Hsize. unfold gaussianBlur, buildKernel, Float32Array_new.
  destruct img as [w h d]. by rewrite (proj2 (Z.ltb_lt size 0)).
Qed.

(** With no weight, the one tap of a window multiplies its sample by
    [undefined]: the sum is a NaN. *)
Lemma F64_convolve_0 (approx : float → float) (sample : Z → float) :
  convolve (N:=Float64 approx) [] 0 sample = nan.
Proof.
  change (convolve (N:=Float64 approx) [] 0 sample)
    with (F64.of_Z 0 + sample 0%Z * nan)%float.
  by rewrite F64_mul_nan, F64_add_nan.
Qed.

Lemma F64_gaussianBlur_size_0 (approx : float → float) (img : ImageData) (sigma : float) :
  well_formed img = true →
  gaussianBlur (N:=Float64 approx) img 0 sigma =
    Normal {| width := width img; height := height img;
              data := replicate (length (data img)) 0 |}.
Proof.
  intros (Hw & Hh & Hlen & Hb)%well_formed_spec.
  destruct img as [w h d]; cbn [width height data] in *.
  unfold gaussianBlur. rewrite buildKernel_0. simpl.
  rewrite Float32Array_new_Normal, Uint8ClampedArray_new_Normal by lia. simpl.
  rewrite Nat2Z.id, blur_rows_write_pixels, blur_columns_write_pixels.
  match goal with |- context [ImageData_new ?o] => set (output := o) end.
  assert (length output = length d) as Hlo.
  { unfold output. by rewrite length_write_pixels, length_replicate. }
  assert (output = replicate (length d) 0) as ->.
  { apply (pixel_buffer_ext w h); [done|lia|by rewrite length_replicate|].
    intros x y c Hx Hy Hc. unfold output.
    rewrite !(write_pixels_get w h); [|rewrite length_replicate; lia|done..].
    unfold column_pass. rewrite F64_convolve_0.
    destruct (array_get_lt (replicate (length d) 0) (sample_index w x y c))
      as (b & -> & Hin).
    { rewrite length_replicate, Hlen. by apply sample_index_range. }
    apply elem_of_replicate in Hin as [-> _]. reflexivity. }
  apply ImageData_new_Normal; [done..|]. by rewrite length_replicate.
Qed.

(** ** The blur of size 1 or less, and the pipeline *)

(** C5, as the code has it: [gaussianBlur] has no case of its own for a
    size of 1 or less. With size 1, and [2 sigma²] neither a NaN nor a
    zero, the kernel is the single weight 1 and the result is a pixel
    buffer with the samples of the input. With size 0 every sample of the
    result is 0, and a negative size is a RangeError. In the callback of
    [runFilter] a size of 1 or less does not reach [gaussianBlur]: the
    original goes to the sharpen step as it is. *)
Theorem gaussianBlur_small_size (approx : float → float) (img : ImageData) :
  well_formed img = true →
  (∀ sigma : float,
     is_nan (2 * (sigma * sigma))%float = false →
     is_zero (2 * (sigma * sigma))%float = false →
     ∃ out : ImageData,
       gaussianBlur (N:=Float64 approx) img 1 sigma = Normal out ∧
       width out = width img ∧ height out = height img ∧
       data out = data img) ∧
  (∀ sigma : float,
     gaussianBlur (N:=Float64 approx) img 0 sigma =
       Normal {| width := width img; height := height img;
                 data := replicate (length (data img)) 0 |}) ∧
  (∀ (size : Z) (sigma : float),
     size < 0 → gaussianBlur (N:=Float64 approx) img size sigma = Throw RangeError) ∧
  (∀ (h : store) (original : option loc) (cb : @frame_callback (Float64 approx)),
     cb_size cb ≤ 1 →
     filter_try h original cb =
       ('(h', filtered) ←
          (if num_gt (cb_sharpen cb) (of_Z 0)
           then sharpenImage_ref h original (cb_sharpen cb)
           else Normal (h, original));
        painted ← putImageData h' filtered;
        Normal (h', filtered, painted))).
Proof.
  intros Hwf. split; [|split; [|split]].
  - intros sigma Hnan Hzero. by apply F64_gaussianBlur_size_1.
  - intros sigma. by apply F64_gaussianBlur_size_0.
  - intros size sigma Hsize. by apply gaussianBlur_negative_size.
  - intros h original cb Hsize. unfold filter_try.
    rewrite Z.gtb_ltb, (proj2 (Z.ltb_ge 1 (cb_size cb))) by lia. reflexivity.
Qed.

(** ** The blur of a uniform image over exact numbers *)

Lemma foldl_Rplus_scale (f : Z → R) (v : R) (l : list Z) (a : R) :
  foldl Rplus (v * a)%R ((λ i, v * f i)%R <$> l) = (v * foldl Rplus a (f <$> l))%R.
Proof.
  revert a. induction l as [|i l IH]; intros a; simpl; [done|].
  rewrite <- IH. f_equal. ring.
Qed.

(** With weights that sum to 1, the window of a constant is the constant. *)
Lemma Exact_convolve_uniform (size : Z) (s v : R) (sample : Z → xreal) :
  0 < size → Z.odd size = true → s ≠ 0%R →
  let r := size / 2 in
  let total := Rsum (gaussian_R s <$> seqZ (- r) (2 * r + 1)) in
  (∀ k, - r ≤ k ≤ r → sample k = Xreal v) →
  convolve (N:=ExactNumber)
    (Xreal <$> ((λ i, gaussian_R s i / total)%R <$> seqZ (- r) size)) r sample
  = Xreal v.
Proof.
  intros Hsize Hodd Hs r total Hsample.
  assert (size = 2 * r + 1) as Hsr.
  { unfold r. rewrite (Z.div_mod size 2) at 1 by lia.
    rewrite <- Z.bit0_mod, Z.bit0_odd, Hodd. done. }
  assert (0 < total)%R as Htotal.
  { apply Rsum_pos; [apply gaussian_R_pos|]. rewrite seqZ_cons by lia. done. }
  unfold convolve.
  rewrite (for_loop_ext _ _ _
    (λ k acc, @num_add ExactNumber acc (Xreal (v * (gaussian_R s k / total))))).
  - change (@of_Z ExactNumber 0) with (Xreal 0). rewrite Exact_sum_loop.
    replace 0%R with (v * 0)%R at 1 by ring.
    rewrite foldl_Rplus_scale. f_equal.
    replace (r + 1 - - r) with (2 * r + 1) by lia.
    fold (Rsum ((λ i, gaussian_R s i / total)%R <$> seqZ (- r) (2 * r + 1))).
    rewrite Rsum_div by lra. fold total. field. lra.
  - intros k acc Hk. rewrite Hsample by lia. unfold f32_read, array_get.
    rewrite (proj2 (Z.ltb_ge (k + r) 0)) by lia.
    rewrite !list_lookup_fmap, lookup_seqZ_lt by lia. simpl.
    replace (- r + Z.of_nat (Z.to_nat (k + r))) with k by lia. done.
Qed.

(** Over exact numbers, the blur of odd size keeps a pixel buffer whose
    pixels are all the same. *)
Lemma Exact_gaussianBlur_uniform (img : ImageData) (size : Z) (s : R) (px : Z → Z) :
  well_formed img = true →
  0 < size → Z.odd size = true → s ≠ 0%R →
  (∀ x y c, 0 ≤ x < width img → 0 ≤ y < height img → 0 ≤ c < 4 →
     array_get (data img) (sample_index (width img) x y c) = Some (px c)) →
  gaussianBlur (N:=ExactNumber) img size (Xreal s) = Normal img.
Proof.
  intros Hwf Hsize Hodd Hs Hpx.
  pose proof Hwf as (Hw & Hh & Hlen & Hb)%well_formed_spec.
  destruct (Exact_buildKernel size s) as [_ Hk]; [lia|done|].
  destruct img as [w h d]; cbn [width height data] in *.
  unfold gaussianBlur. rewrite Hk. simpl.
  rewrite Float32Array_new_Normal, Uint8ClampedArray_new_Normal by lia. simpl.
  rewrite Nat2Z.id, blur_rows_write_pixels, blur_columns_write_pixels.
  match goal with |- context [column_pass w h ?t] => set (temp := t) end.
  match goal with |- context [ImageData_new ?o] => set (output := o) end.
  assert (length output = length d) as Hlo.
  { unfold output. by rewrite length_write_pixels, length_replicate. }
  assert (∀ c, 0 ≤ c < 4 → 0 ≤ px c ≤ 255) as Hrange.
  { intros c Hc. rewrite Forall_forall in Hb. apply Hb.
    destruct (array_get_lt d (sample_index w 0 0 c)) as (b & Hg & Hin).
    { rewrite Hlen. apply sample_index_range; lia. }
    rewrite Hpx in Hg by lia. by injection Hg as ->. }
  assert (∀ x y c, 0 ≤ x < w → 0 ≤ y < h → 0 ≤ c < 4 →
    array_get temp (sample_index w x y c) = Some (Xreal (IZR (px c)))) as Htemp.
  { intros x y c Hx Hy Hc. unfold temp.
    rewrite (write_pixels_get w h); [|rewrite length_replicate; lia|done..].
    f_equal. unfold row_pass. apply Exact_convolve_uniform; [done..|].
    intros k Hk'. unfold u8_read. rewrite Hpx; [done| |done..].
    pose proof (clamp_range (x + k) 0 (w - 1)). lia. }
  assert (output = d) as ->.
  { apply (pixel_buffer_ext w h); [done|lia|done|].
    intros x y c Hx Hy Hc. unfold output.
    rewrite (write_pixels_get w h); [|rewrite length_replicate; lia|done..].
    rewrite Hpx by done. f_equal. unfold column_pass.
    rewrite Exact_convolve_uniform with (v := IZR (px c)); [|done..|].
    - apply Exact_to_uint8_clamp_of_Z. by apply Hrange.
    - intros k Hk'. unfold f32_read. rewrite Htemp; [done|done| |done].
      pose proof (clamp_range (y + k) 0 (h - 1)). lia. }
  by apply ImageData_new_Normal.
Qed.

Lemma Exact_formatKernel (size : Z) :
  formatKernel (N:=ExactNumber) size = Xreal (Rmax (15 / 100) (IZR size / 6)).
Proof.
  unfold formatKernel. simpl. destruct (Req_dec_T 6 0); [lra|done].
Qed.

(** Over exact numbers, the uniform gray image is kept by the blur of any
    positive odd size, with the sigma that [formatKernel] derives. *)
Lemma Exact_gaussianBlur_gray3 (size : Z) :
  0 < size → Z.odd size = true →
  gaussianBlur (N:=ExactNumber) gray3 size (formatKernel (N:=ExactNumber) size)
  = Normal gray3.
Proof.
  intros Hsize Hodd. rewrite Exact_formatKernel.
  apply Exact_gaussianBlur_uniform with (px := λ c, if c =? 3 then 255 else 128);
    [reflexivity|done..| |].
  - pose proof (Rmax_l (15 / 100) (IZR size / 6)). lra.
  - simpl. intros x y c Hx Hy Hc.
    assert (x = 0 ∨ x = 1 ∨ x = 2) as Hx' by lia.
    assert (y = 0 ∨ y = 1 ∨ y = 2) as Hy' by lia.
    assert (c = 0 ∨ c = 1 ∨ c = 2 ∨ c = 3) as Hc' by lia.
    destruct Hx' as [->|[->| ->]], Hy' as [->|[->| ->]], Hc' as [->|[->|[->| ->]]];
      reflexivity.
Qed.

(** ** The store of [sharpenImage] over exact numbers *)


(** ** The theorems at concrete inputs *)

Lemma gaussianBlur_two_passes_witness :
  well_formed impulse3 = true ∧ 1 < 3 ∧
  ∃ out : ImageData,
    gaussianBlur (N:=JS) impulse3 3 0.5%float = Normal out ∧
    width out = 3 ∧ height out = 3.
Proof.
  split; [reflexivity|]. split; [lia|].
  destruct (gaussianBlur_two_passes (N:=JS) impulse3 3 0.5%float)
    as (k & temp & out & _ & Hout & Hw & Hh & _); [reflexivity|lia|].
  exists out. split; [exact Hout|]. split; [exact Hw|exact Hh].
Defined.

Lemma sharpenImage_formula_witness :
  well_formed impulse3 = true ∧ num_gt (JSNumber:=JS) 1.5%float (of_Z 0) = true ∧
  ∃ out : ImageData,
    sharpenImage (N:=JS) impulse3 1.5%float = Normal out ∧
    length (data out) = length (data impulse3).
Proof.
  split; [reflexivity|]. split; [reflexivity|].
  destruct (sharpenImage_formula (N:=JS) (L:=Float64_laws F64.exp_fdlibm)
              impulse3 1.5%float)
    as (out & Hout & _ & _ & Hlen & _); [reflexivity|reflexivity|].
  exists out. split; [exact Hout|exact Hlen].
Defined.


Lemma runFilter_pipeline_witness :
  originalImageData (page_loaded impulse3) = Some 1%positive ∧
  objects (page_loaded impulse3) !! 1%positive = Some impulse3 ∧
  well_formed impulse3 = true ∧
  isProcessing (page_loaded impulse3) = false ∧
  animationFrames (page_loaded impulse3) = [] ∧
  ∃ (out : ImageData) (l : loc),
    FilterPipeline_apply (N:=JS) impulse3 3 0.5%float = Normal out ∧
    currentImageData (animation_frame (runFilter (page_loaded impulse3))) = Some l ∧
    outputCanvas (animation_frame (runFilter (page_loaded impulse3))) = Some out.
Proof.
  do 5 (split; [reflexivity|]).
  destruct (runFilter_pipeline (N:=JS) (L:=Float64_laws F64.exp_fdlibm)
              (page_loaded impulse3) 1%positive impulse3)
    as (out & l & Hout & Hcur & _ & Hcanvas & _); [reflexivity..|].
  exists out, l. split; [exact Hout|]. split; [exact Hcur|exact Hcanvas].
Defined.

Lemma gaussianBlur_small_size_witness :
  well_formed impulse3 = true ∧
  (∃ out : ImageData,
     gaussianBlur (N:=JS) impulse3 1 (formatKernel (N:=JS) 1) = Normal out ∧
     data out = data impulse3) ∧
  gaussianBlur (N:=JS) impulse3 0 (formatKernel (N:=JS) 0) =
    Normal {| width := 3; height := 3; data := replicate 36 0 |}.
Proof.
  split; [reflexivity|].
  destruct (gaussianBlur_small_size F64.exp_fdlibm impulse3)
    as (H1 & H0 & _); [reflexivity|].
  split.
  - destruct (H1 (formatKernel (N:=JS) 1)) as (out & Hout & _ & _ & Hdata);
      [reflexivity..|].
    exists out. split; [exact Hout|exact Hdata].
  - exact (H0 (formatKernel (N:=JS) 0)).
Defined.

Lemma sharpenImage_alpha_witness :
  well_formed impulse3 = true ∧
  ∃ out : ImageData,
    sharpenImage (N:=JS) impulse3 1.5%float = Normal out ∧
    array_get (data out) (sample_index 3 1 1 3) =
    array_get (data impulse3) (sample_index 3 1 1 3).
Proof.
  split; [reflexivity|].
  destruct (sharpenImage_alpha (N:=JS) (L:=Float64_laws F64.exp_fdlibm)
              impulse3 1.5%float)
    as (out & Hout & _ & _ & _ & Halpha); [reflexivity|].
  exists out. split; [exact Hout|]. apply Halpha; simpl; lia.
Defined.

Lemma stages_keep_input_witness :
  ({[1%positive := impulse3]} : store) !! 1%positive = Some impulse3 ∧
  ∃ h' r,
    gaussianBlur_ref (N:=JS) {[1%positive := impulse3]} (Some 1%positive) 3 0.5%float
      = Normal (h', r) ∧
    h' !! 1%positive = Some impulse3.
Proof.
  split; [reflexivity|].
  destruct (stages_keep_input (N:=JS)
              {[1%positive := impulse3]} 1%positive impulse3 3 0.5%float 1.5%float)
    as (Hex & Hkeep & _); [reflexivity|].
  destruct Hex as (h' & r & Hblur); [reflexivity|lia|].
  exists h', r. split; [exact Hblur|]. apply (Hkeep h' r Hblur).
Defined.

Lemma filter_frame_recovers_witness :
  status (filter_frame (N:=JS)
            callback_3
            (page_loaded malformed))
    = "Filtering failed. Try smaller settings." ∧
  outputCanvas (filter_frame (N:=JS)
            callback_3
            (page_loaded malformed))
    = Some malformed.
Proof.
  pose proof (filter_frame_recovers (N:=JS) (L:=Float64_laws F64.exp_fdlibm)
    callback_3
    (page_loaded malformed)) as (_ & _ & Hcase).
  assert (filter_try (N:=JS) (objects (page_loaded malformed))
            (originalImageData (page_loaded malformed))
            callback_3
          = Throw IndexSizeError) as Htry by (vm_compute; reflexivity).
  rewrite Htry in Hcase. destruct Hcase as (Hstatus & Hcanvas & _).
  split; [exact Hstatus|exact Hcanvas].
Defined.


(** ** Counterexamples *)

(** C5 fails: with size 0 the kernel is empty, every weight read is
    [undefined], every sum is a NaN and every sample of the result is 0;
    with size 1 and [sigma = 0] the one weight is a NaN, with the same
    result. A negative size is a RangeError. *)
Lemma gaussianBlur_small_size_not_identity :
  gaussianBlur (N:=JS) one_pixel 0 1%float
    = Normal {| width := 1; height := 1; data := [0; 0; 0; 0] |} ∧
  gaussianBlur (N:=JS) one_pixel 1 0%float
    = Normal {| width := 1; height := 1; data := [0; 0; 0; 0] |} ∧
  gaussianBlur (N:=JS) one_pixel (-1) 1%float = Throw RangeError ∧
  data one_pixel ≠ [0; 0; 0; 0].
Proof.
  split; [vm_compute; reflexivity|]. split; [vm_compute; reflexivity|].
  split; [vm_compute; reflexivity|]. discriminate.
Qed.

(** C7 fails: with [amount = 0], [sharpenImage] returns the reference that
    it received, not a new object, and the store is the same. *)
Lemma sharpenImage_ref_returns_input :
  sharpenImage_ref (N:=JS) {[1%positive := one_pixel]} (Some 1%positive) 0%float
    = Normal ({[1%positive := one_pixel]}, Some 1%positive).
Proof. reflexivity. Qed.

(** ** Evaluations *)

(** The kernel of size 3 for [sigma = 0.5]: Float32 weights. *)
Example buildKernel_3 :
  match buildKernel (N:=JS) 3 0.5%float with
  | Normal k =>
      kernel k = [0x1.b440aap-4%float; 0x1.92efd6p-1%float; 0x1.b440aap-4%float]
      ∧ radius k = 1
  | Throw _ => False
  end.
Proof. vm_compute. split; reflexivity. Qed.

(** The kernel of size 2 for the sigma of [formatKernel]: two weights, that
    do not add up to 1; the blur then reads [kernel[2]], which is
    [undefined], and every sample of its result is 0. *)
Example buildKernel_2 :
  match buildKernel (N:=JS) 2 (formatKernel (N:=JS) 2) with
  | Normal k =>
      kernel k = [0x1.641b8cp-7%float; 0x1.f4df24p-1%float] ∧ radius k = 1
  | Throw _ => False
  end.
Proof. vm_compute. split; reflexivity. Qed.

Example gaussianBlur_even_size :
  gaussianBlur (N:=JS) gray3 2 (formatKernel (N:=JS) 2) =
  Normal {| width := 3; height := 3; data := replicate 36 0 |}.
Proof. vm_compute. reflexivity. Qed.

(** On binary64 numbers, with the exponential of [F64.exp_fdlibm]: for
    every odd size up to 99 and the sigma of [formatKernel], the weights of
    the kernel sum to 1 within [1e-5]. *)
Example kernel_sum_odd_sizes :
  Forall (λ size, ∃ q, kernel_sum size = Some q ∧ (Qabs (q - 1) <= 1 # 100000)%Q)
    odd_sizes.
Proof.
  assert (forallb (λ size,
      match kernel_sum size with
      | Some q => Qle_bool (Qabs (q - 1)) (1 # 100000)
      | None => false
      end) odd_sizes = true) as Hall by (vm_compute; reflexivity).
  rewrite forallb_forall in Hall. apply Forall_forall. intros size Hin.
  specialize (Hall size (proj1 (list_elem_of_In _ _) Hin)).
  destruct (kernel_sum size) as [q|]; [|done].
  exists q. split; [done|]. by apply Qle_bool_iff.
Qed.

(** For every even size up to 100 they sum to less than 1. *)
Example kernel_sum_even_sizes :
  Forall (λ size, ∃ q, kernel_sum size = Some q ∧ (q < 1)%Q) even_sizes.
Proof.
  assert (forallb (λ size,
      match kernel_sum size with
      | Some q => negb (Qle_bool 1 q)
      | None => false
      end) even_sizes = true) as Hall by (vm_compute; reflexivity).
  rewrite forallb_forall in Hall. apply Forall_forall. intros size Hin.
  specialize (Hall size (proj1 (list_elem_of_In _ _) Hin)).
  destruct (kernel_sum size) as [q|]; [|done].
  exists q. split; [done|]. apply Qnot_le_lt. intros Hle%Qle_bool_iff.
  by rewrite Hle in Hall.
Qed.

(** The uniform gray image is kept by the blur of every odd size up to 99. *)
Example gaussianBlur_gray3 :
  Forall (λ size, gaussianBlur (N:=JS) gray3 size (formatKernel (N:=JS) size) = Normal gray3)
    odd_sizes.
Proof.
  let l := eval vm_compute in odd_sizes in change odd_sizes with l.
  repeat (apply List.Forall_cons; [vm_compute; reflexivity|]). apply List.Forall_nil.
Qed.

(** The blur of size 3 spreads the white pixel. *)
Example gaussianBlur_impulse3 :
  gaussianBlur (N:=JS) impulse3 3 (formatKernel (N:=JS) 3) =
  Normal {| width := 3; height := 3;
            data := [3; 3; 3; 255;  21; 21; 21; 255;  3; 3; 3; 255;
                     21; 21; 21; 255;  158; 158; 158; 255;  21; 21; 21; 255;
                     3; 3; 3; 255;  21; 21; 21; 255;  3; 3; 3; 255] |}.
Proof. vm_compute. reflexivity. Qed.

(** The sharpen keeps a uniform image. *)
Example sharpenImage_gray3 :
  sharpenImage (N:=JS) gray3 1.5%float = Normal gray3.
Proof. vm_compute. reflexivity. Qed.

(** * Further properties of the code *)

(** ** The kernel, for every semantics of Numbers *)

Section KernelShape.
Context `{N : JSNumber}.

Lemma gaussian_opp (sigma2 : number) (i : Z) :
  gaussian sigma2 (- i) = gaussian sigma2 i.
Proof. unfold gaussian. by rewrite Z.mul_opp_opp. Qed.

(** X1: For any size that is not negative and any sigma, [buildKernel]
    returns [size] weights with [radius = size / 2] rounded down, and the
    weights at the offsets [i] and [- i] are the same whenever both are in
    the array. *)
Theorem buildKernel_symmetric (size : Z) (sigma : number) :
  0 ≤ size →
  ∃ k : Kernel,
    buildKernel size sigma = Normal k ∧
    radius k = size / 2 ∧
    length (kernel k) = Z.to_nat size ∧
    ∀ i, 0 ≤ radius k - i → radius k + i < size →
         0 ≤ radius k + i → radius k - i < size →
      array_get (kernel k) (radius k + i) = array_get (kernel k) (radius k - i).
Proof.
  intros Hsize.
  destruct (buildKernel_weights size sigma Hsize) as (k & Hk & Hr & Hlen & Hget).
  exists k. do 3 (split; [done|]).
  intros i H1 H2 H3 H4. rewrite !Hget by lia. rewrite Hr.
  replace (size `div` 2 - i - size `div` 2) with (- (size `div` 2 + i - size `div` 2)) by lia.
  by rewrite gaussian_opp.
Qed.

End KernelShape.

(** ** The two stages, for every semantics of Numbers *)

Section Stages.
Context `{N : JSNumber}.

(** [new ImageData] returns exactly when the dimensions are positive and
    fit the length of the data. *)
Lemma ImageData_new_cases (d : Uint8ClampedArray) (w h : Z) :
  ImageData_new d w h =
    if buffer_shape {| width := w; height := h; data := d |}
    then Normal {| width := w; height := h; data := d |}
    else Throw (if (Z.of_nat (length d) =? 0) || negb (Z.of_nat (length d) mod 4 =? 0)
                then InvalidStateError else IndexSizeError).
Proof.
  destruct (buffer_shape _) eqn:Hs.
  - unfold buffer_shape in Hs. simpl in Hs.
    apply andb_true_iff in Hs as [[Hw%Z.ltb_lt Hh%Z.ltb_lt]%andb_true_iff Hl%Z.eqb_eq].
    by apply ImageData_new_Normal.
  - destruct (ImageData_new d w h) as [img|e] eqn:Hn.
    + apply ImageData_new_inv in Hn as (_ & Hw & Hh & Hl).
      unfold buffer_shape in Hs. simpl in Hs.
      rewrite (proj2 (Z.ltb_lt 0 w)), (proj2 (Z.ltb_lt 0 h)), (proj2 (Z.eqb_eq _ _)) in Hs
        by done. done.
    + revert Hn. unfold ImageData_new.
      destruct ((Z.of_nat (length d) =? 0) || negb (Z.of_nat (length d) `mod` 4 =? 0));
        [congruence|].
      destruct ((w <=? 0) || _); [congruence|]. destruct (negb _); [congruence|done].
Qed.

Lemma length_blurred_data img k : length (blurred_data img k) = length (data img).
Proof. unfold blurred_data. by rewrite length_write_pixels, length_replicate. Qed.

Lemma gaussianBlur_unfold (img : ImageData) (size : Z) (sigma : number) (k : Kernel) :
  buildKernel size sigma = Normal k →
  gaussianBlur img size sigma =
    ImageData_new (blurred_data img k) (width img) (height img).
Proof.
  intros Hk. unfold gaussianBlur. destruct img as [w h d]. rewrite Hk.
  destruct k as [kk kr]. simpl.
  rewrite Float32Array_new_Normal, Uint8ClampedArray_new_Normal by lia. simpl.
  by rewrite Nat2Z.id, blur_rows_write_pixels, blur_columns_write_pixels.
Qed.

Lemma sharpen_new_unfold (img : ImageData) (amount : number) :
  sharpen_new img amount =
    ImageData_new
      (write_pixels (width img) (height img)
         (sharpen_sample (width img) (height img) (data img) amount)
         (replicate (length (data img)) 0))
      (width img) (height img).
Proof.
  unfold sharpen_new. destruct img as [w h d].
  rewrite Uint8ClampedArray_new_Normal by lia. simpl.
  by rewrite Nat2Z.id, sharpen_pixels_write_pixels.
Qed.

Lemma buffer_shape_data (img : ImageData) (d : Uint8ClampedArray) :
  length d = length (data img) →
  buffer_shape {| width := width img; height := height img; data := d |} = buffer_shape img.
Proof. intros Hl. unfold buffer_shape. simpl. by rewrite Hl. Qed.

Lemma buffer_shape_spec (img : ImageData) :
  buffer_shape img = true ↔
  0 < width img ∧ 0 < height img ∧
  Z.of_nat (length (data img)) = 4 * width img * height img.
Proof.
  unfold buffer_shape. rewrite !andb_true_iff, !Z.ltb_lt, Z.eqb_eq. tauto.
Qed.

Lemma well_formed_shape (img : ImageData) :
  well_formed img = true → buffer_shape img = true.
Proof.
  intros (Hw & Hh & Hl & _)%well_formed_spec. by apply buffer_shape_spec.
Qed.

(** A window that reads the same samples has the same sum. *)
Lemma convolve_ext (ker : Float32Array) (r : Z) (s1 s2 : Z → number) :
  (∀ k, - r ≤ k ≤ r → s1 k = s2 k) →
  convolve ker r s1 = convolve ker r s2.
Proof.
  intros Hs. unfold convolve. apply for_loop_ext. intros k acc Hk.
  by rewrite Hs by lia.
Qed.


(** X7: Neither stage mixes channels: if two pixel buffers of the same
    dimensions have the same samples in a channel, so have their blurs,
    and so have their sharpened images. *)
Theorem stages_keep_channels_apart (img1 img2 : ImageData) (c : Z) :
  well_formed img1 = true → well_formed img2 = true →
  width img2 = width img1 → height img2 = height img1 →
  0 ≤ c < 4 →
  same_channel c img1 img2 →
  (∀ size sigma out1 out2,
     gaussianBlur img1 size sigma = Normal out1 →
     gaussianBlur img2 size sigma = Normal out2 →
     same_channel c out1 out2) ∧
  (∀ amount out1 out2,
     sharpenImage img1 amount = Normal out1 →
     sharpenImage img2 amount = Normal out2 →
     same_channel c out1 out2).
Proof.
  intros Hwf1 Hwf2 Hw Hh Hc Hsame.
  pose proof Hwf1 as (Hw1 & Hh1 & Hlen1 & _)%well_formed_spec.
  pose proof Hwf2 as (_ & _ & Hlen2 & _)%well_formed_spec.
  rewrite Hw, Hh in Hlen2.
  assert (∀ x y, 0 ≤ x < width img1 → 0 ≤ y < height img1 →
    u8_read (data img1) (sample_index (width img1) x y c) =
    u8_read (data img2) (sample_index (width img1) x y c)) as Hread.
  { intros x y Hx Hy. unfold u8_read. by rewrite Hsame. }
  assert (∀ v lo hi, lo ≤ hi → lo ≤ clamp v lo hi ≤ hi) as Hclamp
    by (intros; unfold clamp; lia).
  split.
  - intros size sigma out1 out2 H1 H2.
    destruct (buildKernel size sigma) as [k|e] eqn:Hk.
    2:{ unfold gaussianBlur in H1. destruct img1. by rewrite Hk in H1. }
    rewrite (gaussianBlur_unfold _ _ _ k Hk), ImageData_new_cases in H1.
    rewrite (gaussianBlur_unfold _ _ _ k Hk), ImageData_new_cases in H2.
    rewrite buffer_shape_data, (well_formed_shape _ Hwf1) in H1
      by apply length_blurred_data.
    rewrite buffer_shape_data, (well_formed_shape _ Hwf2) in H2
      by apply length_blurred_data.
    injection H1 as <-. injection H2 as <-. rewrite Hw, Hh.
    intros x y Hx Hy. cbn [width height data] in *. unfold blurred_data.
    rewrite Hw, Hh.
    rewrite !(write_pixels_get (width img1) (height img1))
      by first [done | rewrite length_replicate; lia].
    do 2 f_equal. unfold column_pass. apply convolve_ext. intros k' Hk'.
    unfold f32_read. pose proof (Hclamp (y + k') 0 (height img1 - 1)).
    rewrite !(write_pixels_get (width img1) (height img1))
      by first [done | lia | rewrite length_replicate; lia].
    simpl. f_equal. unfold row_pass. apply convolve_ext. intros k2 Hk2.
    pose proof (Hclamp (x + k2) 0 (width img1 - 1)). apply Hread; lia.
  - intros amount out1 out2. unfold sharpenImage.
    destruct (num_le amount (of_Z 0)).
    { intros [= <-] [= <-]. done. }
    rewrite !sharpen_new_unfold, !ImageData_new_cases.
    rewrite !buffer_shape_data, (well_formed_shape _ Hwf1), (well_formed_shape _ Hwf2)
      by (by rewrite length_write_pixels, length_replicate).
    intros [= <-] [= <-]. rewrite Hw, Hh.
    intros x y Hx Hy. cbn [width height data] in *.
    rewrite !(write_pixels_get (width img1) (height img1))
      by first [done | rewrite length_replicate; lia].
    f_equal. unfold sharpen_sample.
    destruct (c =? 3) eqn:Hc3.
    + apply Z.eqb_eq in Hc3. subst c. f_equal. by apply Hread.
    + do 3 f_equal. unfold sharpened.
      rewrite !Hread; [done|..]; try done;
        try (specialize (Hclamp (x - 1) 0 (width img1 - 1)); lia);
        try (specialize (Hclamp (x + 1) 0 (width img1 - 1)); lia);
        try (specialize (Hclamp (y - 1) 0 (height img1 - 1)); lia);
        try (specialize (Hclamp (y + 1) 0 (height img1 - 1)); lia).
Qed.

Context `{L : !JSNumberLaws}.




End Stages.

(** ** The listeners and the animation frames *)

Section ListenersProofs.
Context `{N : JSNumber}.

Lemma same_but_sliders_refl (s : page) : same_but_sliders s s.
Proof. by repeat split. Qed.

Lemma same_but_sliders_trans (s1 s2 s3 : page) :
  same_but_sliders s1 s2 → same_but_sliders s2 s3 → same_but_sliders s1 s3.
Proof.
  intros (? & ? & ? & ? & ? & ? & ?) (? & ? & ? & ? & ? & ? & ?).
  repeat split; congruence.
Qed.

Lemma set_slider_values_same (size : Z) (sharpen : number) (s : page) :
  same_but_sliders s (set_slider_values size sharpen s).
Proof. by repeat split. Qed.

(** [runFilter] returns at once when a run is pending or no image is
    loaded. *)
Lemma runFilter_guard (s : page) :
  originalImageData s = None ∨ isProcessing s = true → runFilter s = s.
Proof.
  unfold runFilter. intros [-> | ->]; [done|]. by destruct (originalImageData s).
Qed.

Lemma runFilter_keeps (s : page) :
  objects (runFilter s) = objects s ∧
  originalImageData (runFilter s) = originalImageData s ∧
  kernelSize_value (runFilter s) = kernelSize_value s ∧
  sharpenAmount_value (runFilter s) = sharpenAmount_value s.
Proof.
  unfold runFilter. destruct (originalImageData s) eqn:Ho; [|done].
  destruct (isProcessing s); [done|].
  by destruct ((kernelSize_value s <=? 1) && _).
Qed.

Lemma runFilter_idle_or_pending (s : page) :
  idle_or_pending s → idle_or_pending (runFilter s).
Proof.
  unfold runFilter, idle_or_pending.
  destruct (originalImageData s); [|done].
  destruct (isProcessing s) eqn:Hp; [by rewrite Hp|].
  intros Hq. destruct ((kernelSize_value s <=? 1) && _); simpl.
  - done.
  - rewrite Hq. by eexists.
Qed.

Lemma filter_frame_keeps (cb : frame_callback) (s : page) :
  isProcessing (filter_frame cb s) = false ∧
  originalImageData (filter_frame cb s) = originalImageData s ∧
  kernelSize_value (filter_frame cb s) = kernelSize_value s ∧
  sharpenAmount_value (filter_frame cb s) = sharpenAmount_value s ∧
  animationFrames (filter_frame cb s) = animationFrames s.
Proof.
  unfold filter_frame. by destruct (filter_try _ _ cb) as [[[h f] p]|e].
Qed.

Lemma animation_frame_nil (s : page) :
  animationFrames s = [] →
  same_but_sliders s (animation_frame s) ∧
  kernelSize_value (animation_frame s) = kernelSize_value s ∧
  sharpenAmount_value (animation_frame s) = sharpenAmount_value s.
Proof. intros Hq. unfold animation_frame. rewrite Hq. simpl. by repeat split. Qed.

Lemma animation_frame_one (s : page) (cb : frame_callback) :
  animationFrames s = [cb] →
  animation_frame s =
    filter_frame cb
      {| objects := objects s;
         originalImageData := originalImageData s;
         currentImageData := currentImageData s;
         isProcessing := isProcessing s;
         kernelSize_value := kernelSize_value s;
         sharpenAmount_value := sharpenAmount_value s;
         outputCanvas := outputCanvas s;
         status := status s;
         animationFrames := [] |}.
Proof. intros Hq. unfold animation_frame. by rewrite Hq. Qed.

(** The callbacks read the page but for the values of the sliders, which
    they pass on. *)
Lemma filter_frame_same (cb : frame_callback) (s s' : page) :
  same_but_sliders s s' →
  same_but_sliders (filter_frame cb s) (filter_frame cb s').
Proof.
  intros (Ho & Hor & Hc & Hp & Hca & Hst & Hq). unfold filter_frame.
  rewrite Ho, Hor. destruct (filter_try _ _ cb) as [[[h f] p]|e]; by repeat split.
Qed.

Lemma foldl_filter_frame_same (q : list frame_callback) (a b : page) :
  same_but_sliders a b →
  same_but_sliders (foldl (λ s cb, filter_frame cb s) a q)
                   (foldl (λ s cb, filter_frame cb s) b q).
Proof.
  revert a b. induction q as [|cb q IH]; intros a b Hab; [done|].
  simpl. apply IH. by apply filter_frame_same.
Qed.

Lemma animation_frame_same (s s' : page) :
  same_but_sliders s s' →
  same_but_sliders (animation_frame s) (animation_frame s').
Proof.
  intros (Ho & Hor & Hc & Hp & Hca & Hst & Hq).
  unfold animation_frame. rewrite Hq.
  apply foldl_filter_frame_same. by repeat split.
Qed.

Context `{L : !JSNumberLaws}.

(** The [try] block only adds objects to the store. *)
Lemma filter_try_store (h : store) (o : option loc) (cb : frame_callback) h' f p :
  filter_try h o cb = Normal (h', f, p) → h ⊆ h'.
Proof.
  unfold filter_try.
  destruct (if cb_size cb >? 1 then _ else _) as [[h1 r1]|] eqn:Hb; [simpl|done].
  destruct (if num_gt _ _ then _ else _) as [[h2 r2]|] eqn:Hs; [simpl|done].
  destruct (putImageData h2 r2); [simpl|done]. intros [= <- <- <-].
  apply blur_step_inv in Hb. apply sharpen_step_inv in Hs.
  assert (h ⊆ h1) by (destruct Hb as [[-> _]|(? & ? & ? & ? & _)]; done).
  assert (h1 ⊆ h2) by (destruct Hs as [[-> _]|(? & ? & ? & ? & _)]; done).
  by etrans.
Qed.

Lemma filter_frame_store (cb : frame_callback) (s : page) :
  objects s ⊆ objects (filter_frame cb s).
Proof.
  unfold filter_frame.
  destruct (filter_try _ _ cb) as [[[h f] p]|e] eqn:Htry; [|done].
  simpl. by eapply filter_try_store.
Qed.

Lemma dispatch_inv (e : event) (s : page) :
  idle_or_pending s →
  idle_or_pending (dispatch e s) ∧
  originalImageData (dispatch e s) = originalImageData s ∧
  objects s ⊆ objects (dispatch e s).
Proof.
  intros Hs.
  assert (∀ size sharpen,
    idle_or_pending (runFilter (set_slider_values size sharpen s)) ∧
    originalImageData (runFilter (set_slider_values size sharpen s)) = originalImageData s ∧
    objects s ⊆ objects (runFilter (set_slider_values size sharpen s))) as Hrun.
  { intros size sharpen.
    destruct (runFilter_keeps (set_slider_values size sharpen s)) as (-> & -> & _).
    split; [|done]. by apply runFilter_idle_or_pending. }
  destruct e as [v|v| |]; simpl; [apply Hrun..|].
  unfold idle_or_pending in Hs. destruct (isProcessing s) eqn:Hp.
  - destruct Hs as [cb Hq]. rewrite (animation_frame_one s cb Hq).
    destruct (filter_frame_keeps cb
      {| objects := objects s; originalImageData := originalImageData s;
         currentImageData := currentImageData s; isProcessing := isProcessing s;
         kernelSize_value := kernelSize_value s;
         sharpenAmount_value := sharpenAmount_value s;
         outputCanvas := outputCanvas s; status := status s;
         animationFrames := [] |}) as (Hp' & Ho' & _ & _ & Hq').
    split; [unfold idle_or_pending; by rewrite Hp', Hq'|]. split; [done|].
    apply (filter_frame_store cb
      {| objects := objects s; originalImageData := originalImageData s;
         currentImageData := currentImageData s; isProcessing := isProcessing s;
         kernelSize_value := kernelSize_value s;
         sharpenAmount_value := sharpenAmount_value s;
         outputCanvas := outputCanvas s; status := status s;
         animationFrames := [] |}).
  - destruct (animation_frame_nil s Hs) as ((Ho & Hor & _ & Hp' & _ & _ & Hq) & _).
    split; [unfold idle_or_pending; by rewrite Hp', Hp, Hq|].
    split; [done|]. by rewrite Ho.
Qed.

Lemma dispatch_all_inv (es : list event) (s : page) :
  idle_or_pending s →
  idle_or_pending (dispatch_all es s) ∧
  originalImageData (dispatch_all es s) = originalImageData s ∧
  objects s ⊆ objects (dispatch_all es s).
Proof.
  revert s. induction es as [|e es IH]; intros s Hs; [done|].
  unfold dispatch_all. simpl. fold (dispatch_all es (dispatch e s)).
  destruct (dispatch_inv e s Hs) as (H1 & H2 & H3).
  destruct (IH (dispatch e s) H1) as (H4 & H5 & H6).
  split; [done|]. split; [congruence|by etrans].
Qed.

Lemma animation_frame_idle (s : page) :
  idle_or_pending s →
  isProcessing (animation_frame s) = false ∧ animationFrames (animation_frame s) = [].
Proof.
  unfold idle_or_pending. destruct (isProcessing s) eqn:Hp.
  - intros [cb Hq]. rewrite (animation_frame_one s cb Hq).
    match goal with |- context [filter_frame cb ?s0] =>
      destruct (filter_frame_keeps cb s0) as (-> & _ & _ & _ & ->) end.
    done.
  - intros Hq. destruct (animation_frame_nil s Hq) as ((_ & _ & _ & -> & _ & _ & ->) & _).
    done.
Qed.

(** X15: However the sliders are moved, the reset button clicked and the
    animation frames run, at most one run of the filter is pending, and it
    is pending exactly while [isProcessing] is set; after an animation
    frame none is; the original image is the same object, and every
    object of the store is as it was. *)
Theorem events_keep_one_run (es : list event) (s : page) :
  idle_or_pending s →
  let s' := dispatch_all es s in
  idle_or_pending s' ∧
  (length (animationFrames s') ≤ 1)%nat ∧
  (isProcessing s' = true ↔ animationFrames s' ≠ []) ∧
  (∀ es0, es = es0 ++ [AnimationFrame] →
     isProcessing s' = false ∧ animationFrames s' = []) ∧
  originalImageData s' = originalImageData s ∧
  objects s ⊆ objects s'.
Proof.
  intros Hs s'. destruct (dispatch_all_inv es s Hs) as (H1 & H2 & H3).
  fold s' in H1, H2, H3. split; [done|].
  assert (∀ es0, es = es0 ++ [AnimationFrame] →
    isProcessing s' = false ∧ animationFrames s' = []) as Hframe.
  { intros es0 ->. subst s'. unfold dispatch_all. rewrite foldl_app. simpl.
    apply animation_frame_idle. by apply dispatch_all_inv. }
  unfold idle_or_pending in H1. destruct (isProcessing s').
  - destruct H1 as [cb Hq]. rewrite Hq in *. simpl. split; [lia|]. by split.
  - rewrite H1 in *. simpl. split; [lia|]. split; [|done]. by split.
Qed.

(** X16: A slider moved or the reset button clicked while a run is pending
    only changes the values of the sliders: no run is queued for the new
    values, and the pending frame shows what it would have shown
    without these events. *)
Theorem requests_dropped_while_processing (es : list event) (s : page) :
  isProcessing s = true →
  forallb (λ e, negb (is_frame e)) es = true →
  same_but_sliders s (dispatch_all es s) ∧
  same_but_sliders (animation_frame s) (animation_frame (dispatch_all es s)).
Proof.
  intros Hp Hes.
  assert (same_but_sliders s (dispatch_all es s)) as Hsame.
  { revert s Hp. induction es as [|e es IH]; intros s Hp; [apply same_but_sliders_refl|].
    simpl in Hes. apply andb_true_iff in Hes as [He Hes].
    unfold dispatch_all. simpl. fold (dispatch_all es (dispatch e s)).
    assert (same_but_sliders s (dispatch e s)) as Hstep.
    { destruct e as [v|v| |]; [..|done]; simpl;
        unfold kernelSize_input, sharpenAmount_input, resetBtn_click;
        (rewrite runFilter_guard; [apply set_slider_values_same|by right]). }
    eapply same_but_sliders_trans; [exact Hstep|]. apply IH; [done|].
    destruct Hstep as (_ & _ & _ & -> & _). done. }
  split; [done|]. by apply animation_frame_same.
Qed.

(** X18: Before an image is loaded, the sliders, the reset button and the
    animation frames change nothing on the page but the values of the
    sliders: nothing is painted and no run is queued. *)
Theorem no_image_no_run (es : list event) (s : page) :
  originalImageData s = None →
  isProcessing s = false →
  animationFrames s = [] →
  same_but_sliders s (dispatch_all es s).
Proof.
  revert s. induction es as [|e es IH]; intros s Ho Hp Hq;
    [apply same_but_sliders_refl|].
  unfold dispatch_all. simpl. fold (dispatch_all es (dispatch e s)).
  assert (same_but_sliders s (dispatch e s)) as Hstep.
  { destruct e as [v|v| |]; simpl;
      unfold kernelSize_input, sharpenAmount_input, resetBtn_click;
      try (rewrite runFilter_guard; [apply set_slider_values_same|by left]).
    by apply animation_frame_nil. }
  eapply same_but_sliders_trans; [exact Hstep|].
  destruct Hstep as (_ & Ho' & _ & Hp' & _ & _ & Hq').
  apply IH; congruence.
Qed.

(** [runFilter] on an idle page, then the animation frame. *)
Lemma runFilter_then_frame (s : page) (o : loc) (img : ImageData) :
  originalImageData s = Some o →
  objects s !! o = Some img →
  well_formed img = true →
  isProcessing s = false →
  animationFrames s = [] →
  let s' := animation_frame (runFilter s) in
  ∃ (out : ImageData) (l : loc),
    FilterPipeline_apply img (kernelSize_value s) (sharpenAmount_value s) = Normal out ∧
    currentImageData s' = Some l ∧
    objects s' !! l = Some out ∧
    outputCanvas s' = Some out ∧
    isProcessing s' = false ∧
    animationFrames s' = [] ∧
    kernelSize_value s' = kernelSize_value s ∧
    sharpenAmount_value s' = sharpenAmount_value s.
Proof.
  intros Ho Himg Hwf Hidle Hq s'.
  destruct (FilterPipeline_apply_Normal img (kernelSize_value s) (sharpenAmount_value s) Hwf)
    as (out & Hout & _).
  exists out. subst s'. unfold runFilter. rewrite Ho, Hidle.
  destruct ((kernelSize_value s <=? 1) && num_le (sharpenAmount_value s) (of_Z 0)) eqn:Hfast.
  - exists o.
    assert (out = img) as ->.
    { unfold FilterPipeline_apply in Hout. rewrite Hfast in Hout. congruence. }
    unfold animation_frame. simpl. rewrite Hq. simpl. rewrite Himg. done.
  - destruct (filter_try_Normal (objects s) o img out
                (kernelSize_value s) (sharpenAmount_value s))
      as (h' & l & Htry & Hsub & Hl); [done..|].
    exists l. unfold animation_frame. simpl. rewrite Hq. simpl.
    unfold filter_frame. simpl. rewrite Htry. simpl. done.
Qed.

(** X17: Every run filters the original image: on a page that has gone through
    any sequence of events and is idle, a slider moved or the reset
    button clicked, then the animation frame, shows the result of the
    pipeline on the original image for the values that the sliders hold;
    what was shown before plays no part. *)
Theorem refilter_from_original (s : page) (o : loc) (img : ImageData)
    (es : list event) (e : event) :
  idle_or_pending s →
  originalImageData s = Some o →
  objects s !! o = Some img →
  well_formed img = true →
  let s1 := dispatch_all es s in
  isProcessing s1 = false →
  is_frame e = false →
  let s2 := animation_frame (dispatch e s1) in
  ∃ (out : ImageData) (l : loc),
    FilterPipeline_apply img (kernelSize_value s2) (sharpenAmount_value s2) = Normal out ∧
    currentImageData s2 = Some l ∧
    objects s2 !! l = Some out ∧
    outputCanvas s2 = Some out ∧
    isProcessing s2 = false ∧
    animationFrames s2 = [] ∧
    kernelSize_value s2 =
      match e with
      | KernelSizeInput v => v | ResetClick => 1 | _ => kernelSize_value s1
      end ∧
    sharpenAmount_value s2 =
      match e with
      | SharpenAmountInput v => v | ResetClick => of_Z 0 | _ => sharpenAmount_value s1
      end.
Proof.
  intros Hs Ho Himg Hwf s1 Hidle He s2.
  destruct (dispatch_all_inv es s Hs) as (H1 & H2 & H3). fold s1 in H1, H2, H3.
  unfold idle_or_pending in H1. rewrite Hidle in H1.
  assert (objects s1 !! o = Some img) as Himg1 by (by eapply lookup_weaken).
  assert (∀ size sharpen,
    let s2 := animation_frame (runFilter (set_slider_values size sharpen s1)) in
    ∃ (out : ImageData) (l : loc),
      FilterPipeline_apply img (kernelSize_value s2) (sharpenAmount_value s2) = Normal out ∧
      currentImageData s2 = Some l ∧ objects s2 !! l = Some out ∧
      outputCanvas s2 = Some out ∧ isProcessing s2 = false ∧
      animationFrames s2 = [] ∧
      kernelSize_value s2 = size ∧ sharpenAmount_value s2 = sharpen) as Hrun.
  { intros size sharpen.
    destruct (runFilter_then_frame (set_slider_values size sharpen s1) o img)
      as (out & l & Hout & Hc & Hl & Hca & Hp & Hq & Hk & Ha); simpl; try done.
    - congruence.
    - simpl in *. exists out, l. rewrite Hk, Ha. done. }
  subst s2. destruct e as [v|v| |]; [..|done]; simpl; apply Hrun.
Qed.

End ListenersProofs.

(** X19: The reset button over binary64 numbers: on an idle page it shows the
    original image itself at once, with no animation frame, no new
    object, and the status line as it was; while a run is pending it only
    sets the sliders, and the image of the pending run is shown after
    it. *)
Theorem resetBtn_click_shows_original (approx : float → float)
    (s : @page (Float64 approx)) (o : loc) (img : ImageData) :
  originalImageData s = Some o →
  objects s !! o = Some img →
  let s' := resetBtn_click s in
  kernelSize_value s' = 1 ∧ sharpenAmount_value s' = 0%float ∧
  if isProcessing s then same_but_sliders s s'
  else
    currentImageData s' = Some o ∧
    outputCanvas s' = Some img ∧
    objects s' = objects s ∧
    isProcessing s' = false ∧
    animationFrames s' = animationFrames s ∧
    status s' = status s.
Proof.
  intros Ho Himg s'. subst s'. unfold resetBtn_click.
  destruct (isProcessing s) eqn:Hp.
  - rewrite runFilter_guard by (by right). simpl. do 2 (split; [done|]).
    destruct (set_slider_values_same (N:=Float64 approx) 1 0%float s)
      as (? & ? & ? & ? & ? & ? & ?).
    by repeat split.
  - unfold runFilter. simpl. rewrite Ho, Hp. simpl.
    change (F64.of_Z 0 <=? F64.of_Z 0)%float with true. simpl.
    by repeat split.
Qed.

(** ** Kernels with a NaN, over binary64 numbers *)

Lemma F64_nan_add (x : float) : (nan + x)%float = nan.
Proof.
  rewrite <- (SF2Prim_Prim2SF (nan + x)), add_spec.
  change (Prim2SF nan) with S754_nan. done.
Qed.

Lemma F64_nan_mul (x : float) : (nan * x)%float = nan.
Proof.
  rewrite <- (SF2Prim_Prim2SF (nan * x)), mul_spec.
  change (Prim2SF nan) with S754_nan. done.
Qed.

Lemma F64_nan_sub (x : float) : (nan - x)%float = nan.
Proof.
  rewrite <- (SF2Prim_Prim2SF (nan - x)), sub_spec.
  change (Prim2SF nan) with S754_nan. done.
Qed.

Lemma F64_div_nan (x : float) : (x / nan)%float = nan.
Proof.
  rewrite <- (SF2Prim_Prim2SF (x / nan)), div_spec.
  change (Prim2SF nan) with S754_nan.
  by destruct (Prim2SF x) as [sx | sx | | sx mx ex].
Qed.

Lemma F64_is_nan_eq (x : float) : is_nan x = true → x = nan.
Proof.
  unfold is_nan. rewrite FloatAxioms.eqb_spec. intros Hx.
  rewrite <- (SF2Prim_Prim2SF x).
  destruct (Prim2SF x) as [sx | sx | | sx mx ex]; [..|done|]; exfalso.
  - done.
  - by destruct sx.
  - unfold SFeqb, SFcompare in Hx.
    rewrite Z.compare_refl, Pos.compare_cont_refl in Hx. by destruct sx.
Qed.

Lemma F64_is_zero_cases (x : float) :
  is_zero x = true → x = zero ∨ x = neg_zero.
Proof.
  unfold is_zero. rewrite FloatAxioms.eqb_spec.
  change (Prim2SF zero) with (S754_zero false). intros Hx.
  rewrite <- (SF2Prim_Prim2SF x).
  destruct (Prim2SF x) as [sx | sx | | sx mx ex]; [|exfalso..].
  - destruct sx; [by right|by left].
  - by destruct sx.
  - done.
  - by destruct sx.
Qed.

(** A window whose last tap has a NaN weight sums to a NaN: the weight
    read past the end of the array, which is [undefined], is one. *)
Lemma F64_convolve_last_nan (approx : float → float) (ker : list float) (r : Z)
    (sample : Z → float) :
  0 ≤ r →
  f32_read (N:=Float64 approx) ker (r + r) = nan →
  convolve (N:=Float64 approx) ker r sample = nan.
Proof.
  intros Hr Hlast. unfold convolve. rewrite for_loop_snoc by lia.
  rewrite Hlast. simpl. by rewrite F64_mul_nan, F64_add_nan.
Qed.

(** With such a kernel every sample of the blur is 0, alpha included. *)
Lemma F64_gaussianBlur_black (approx : float → float) (img : ImageData) (size : Z)
    (sigma : float) (k : @Kernel (Float64 approx)) :
  well_formed img = true →
  buildKernel (N:=Float64 approx) size sigma = Normal k →
  0 ≤ radius k →
  f32_read (N:=Float64 approx) (kernel k) (radius k + radius k) = nan →
  gaussianBlur (N:=Float64 approx) img size sigma =
    Normal {| width := width img; height := height img;
              data := replicate (length (data img)) 0 |}.
Proof.
  intros Hwf Hk Hr Hlast.
  pose proof Hwf as (Hw & Hh & Hlen & _)%well_formed_spec.
  rewrite (gaussianBlur_unfold _ _ _ k Hk).
  assert (blurred_data img k = replicate (length (data img)) 0) as ->.
  { apply (pixel_buffer_ext (width img) (height img)); [done| |
      by rewrite length_blurred_data, length_replicate|].
    { by rewrite length_blurred_data. }
    intros x y c Hx Hy Hc. unfold blurred_data.
    rewrite (write_pixels_get (width img) (height img))
      by first [done | rewrite length_replicate; lia].
    unfold column_pass. rewrite F64_convolve_last_nan by done.
    destruct (array_get_lt (replicate (length (data img)) 0)
                (sample_index (width img) x y c)) as (b & -> & Hin).
    { rewrite length_replicate, Hlen. by apply sample_index_range. }
    apply elem_of_replicate in Hin as [-> _]. reflexivity. }
  apply ImageData_new_Normal; [done..|]. by rewrite length_replicate.
Qed.

(** X8: For every even size that is not negative, whatever the sigma, the
    last tap of every window reads [kernel[size]], past the end of the
    array: every sum is a NaN, and [gaussianBlur] returns a pixel buffer
    whose samples are all 0, alpha included. *)
Theorem gaussianBlur_even_size_black (approx : float → float) (img : ImageData)
    (size : Z) (sigma : float) :
  well_formed img = true →
  0 ≤ size →
  Z.even size = true →
  gaussianBlur (N:=Float64 approx) img size sigma =
    Normal {| width := width img; height := height img;
              data := replicate (length (data img)) 0 |}.
Proof.
  intros Hwf Hsize Heven.
  destruct (buildKernel_weights (N:=Float64 approx) size sigma Hsize)
    as (k & Hk & Hr & Hlen & _).
  assert (size = 2 * (size / 2)) as Hsr.
  { rewrite (Z.div_mod size 2) at 1 by lia.
    rewrite <- Z.bit0_mod, Z.bit0_odd, <- Z.negb_even, Heven. simpl. lia. }
  apply (F64_gaussianBlur_black approx img size sigma k); [done..| |].
  - rewrite Hr. apply Z.div_pos; lia.
  - unfold f32_read, array_get. rewrite Hr.
    rewrite (proj2 (Z.ltb_ge _ 0)) by lia.
    rewrite lookup_ge_None_2; [done|]. rewrite Hlen. lia.
Qed.

(** The exponent at offset 0 is a NaN when [2 sigma²] is a NaN or a
    zero. *)
Lemma F64_exp_offset_0_nan (approx : float → float) (d : float) :
  is_nan d || is_zero d = true →
  F64.exp approx (- F64.of_Z (0 * 0) / d)%float = nan.
Proof.
  intros [Hd%F64_is_nan_eq | Hd%F64_is_zero_cases]%orb_true_iff.
  - subst d. by rewrite F64_div_nan.
  - by destruct Hd as [-> | ->].
Qed.

Lemma F64_kernel_total_nan (approx : float → float) (sigma : float) (r : Z) :
  0 ≤ r →
  is_nan (2 * (sigma * sigma))%float || is_zero (2 * (sigma * sigma))%float = true →
  kernel_total (N:=Float64 approx) (sigma * sigma)%float r = nan.
Proof.
  intros Hr Hd. unfold kernel_total.
  cut (0 < r + 1 →
    for_loop (- r) (r + 1)
      (λ i sum, @num_add (Float64 approx) sum
                  (gaussian (N:=Float64 approx) (sigma * sigma)%float i))
      (@of_Z (Float64 approx) 0) = nan); [intros H; apply H; lia|].
  apply (for_loop_ind (λ i sum, 0 < i → sum = nan)); [lia|lia|].
  intros i sum Hi IH Hpos. simpl.
  destruct (decide (i = 0)) as [->|Hne].
  - unfold gaussian. simpl. change (F64.of_Z 2) with 2%float.
    by rewrite F64_exp_offset_0_nan, F64_add_nan.
  - rewrite IH by lia. apply F64_nan_add.
Qed.

Lemma F64_read_nans (approx : float → float) (n : nat) (i : Z) :
  f32_read (N:=Float64 approx) (replicate n nan) i = nan.
Proof.
  unfold f32_read, array_get. destruct (i <? 0); [done|].
  destruct (_ !! _) as [v|] eqn:Hv; [|done].
  by apply lookup_replicate in Hv as [-> _].
Qed.

(** X9: When [2 sigma²] is a zero or a NaN (sigma 0, a sigma whose square
    underflows, a NaN), every weight of the kernel is a NaN, whatever the
    size, and every sample of the blur is 0, alpha included. *)
Theorem gaussianBlur_degenerate_sigma (approx : float → float) (img : ImageData)
    (size : Z) (sigma : float) :
  well_formed img = true →
  0 ≤ size →
  is_nan (2 * (sigma * sigma))%float || is_zero (2 * (sigma * sigma))%float = true →
  buildKernel (N:=Float64 approx) size sigma =
    Normal (@Build_Kernel (Float64 approx) (replicate (Z.to_nat size) nan) (size / 2)) ∧
  gaussianBlur (N:=Float64 approx) img size sigma =
    Normal {| width := width img; height := height img;
              data := replicate (length (data img)) 0 |}.
Proof.
  intros Hwf Hsize Hd.
  destruct (buildKernel_weights (N:=Float64 approx) size sigma Hsize)
    as ([ker rad] & Hk & Hr & Hlen & Hget).
  cbn [kernel radius] in Hr, Hlen, Hget. subst rad.
  assert (0 ≤ size / 2) as Hr by (apply Z.div_pos; lia).
  assert (ker = replicate (Z.to_nat size) nan) as ->.
  { apply list_eq. intros n.
    destruct (decide (Z.of_nat n < size)) as [Hn|Hn].
    - specialize (Hget (Z.of_nat n)). unfold array_get in Hget.
      rewrite (proj2 (Z.ltb_ge (Z.of_nat n) 0)), Nat2Z.id in Hget by lia.
      rewrite Hget by lia. rewrite lookup_replicate_2 by lia. f_equal.
      change (@num_mul (Float64 approx) sigma sigma) with (sigma * sigma)%float.
      rewrite F64_kernel_total_nan by done. simpl. by rewrite F64_div_nan.
    - rewrite !lookup_ge_None_2; [done|rewrite length_replicate; lia|lia]. }
  split; [done|].
  apply (F64_gaussianBlur_black approx img size sigma _ Hwf Hk); [done|].
  apply F64_read_nans.
Qed.

(** ** The sharpen with a NaN amount, over binary64 numbers *)

(** X10: A NaN amount is not [<= 0]: the loops run, every color sample is
    computed as a NaN and stored as 0; the alpha samples are kept. *)
Theorem sharpenImage_nan_amount (approx : float → float) (img : ImageData) :
  well_formed img = true →
  ∃ out : ImageData,
    sharpenImage (N:=Float64 approx) img nan = Normal out ∧
    width out = width img ∧ height out = height img ∧
    ∀ x y, 0 ≤ x < width img → 0 ≤ y < height img →
      (∀ c, 0 ≤ c < 3 →
         array_get (data out) (sample_index (width img) x y c) = Some 0) ∧
      array_get (data out) (sample_index (width img) x y 3) =
      array_get (data img) (sample_index (width img) x y 3).
Proof.
  intros Hwf. pose proof Hwf as (Hw & Hh & Hlen & Hb)%well_formed_spec.
  eexists. split.
  { unfold sharpenImage. change (num_le (JSNumber:=Float64 approx) nan (of_Z 0)) with false.
    by apply sharpen_new_Normal. }
  simpl. do 2 (split; [done|]). intros x y Hx Hy. split.
  - intros c Hc.
    rewrite (write_pixels_get (width img) (height img))
      by first [done | lia | rewrite length_replicate; lia].
    f_equal. unfold sharpen_sample. rewrite (proj2 (Z.eqb_neq c 3)) by lia.
    unfold sharpened. simpl.
    by rewrite ?F64_nan_mul, ?F64_add_nan, ?F64_mul_nan, ?F64_nan_sub.
  - rewrite (write_pixels_get (width img) (height img))
      by first [done | lia | rewrite length_replicate; lia].
    unfold sharpen_sample. simpl.
    destruct (array_get_lt (data img) (sample_index (width img) x y 3)) as (b & Hg & Hin).
    { rewrite Hlen. apply sample_index_range; lia. }
    unfold u8_read. rewrite Hg. simpl. f_equal.
    apply F64_to_uint8_clamp_of_Z. rewrite Forall_forall in Hb. by apply Hb.
Qed.

(** ** Uniform channels and uniform images *)

Section Flat.
Context `{N : JSNumber}.

Lemma flat_channel_range (img : ImageData) (c v : Z) :
  well_formed img = true → 0 ≤ c < 4 → flat_channel img c v → 0 ≤ v ≤ 255.
Proof.
  intros (Hw & Hh & Hlen & Hb)%well_formed_spec Hc Hv.
  rewrite Forall_forall in Hb. apply Hb.
  destruct (array_get_lt (data img) (sample_index (width img) 0 0 c)) as (b & Hg & Hin).
  { rewrite Hlen. apply sample_index_range; lia. }
  rewrite Hv in Hg by lia. by injection Hg as ->.
Qed.

Lemma flat_flat_channel (img : ImageData) (px : Z → Z) (c : Z) :
  flat img px → 0 ≤ c < 4 → flat_channel img c (px c).
Proof. intros Hpx Hc x y Hx Hy. by apply Hpx. Qed.

(** A pixel buffer with the dimensions of a uniform image and the same
    uniform channels is this image. *)
Lemma flat_unique (img out : ImageData) (px : Z → Z) :
  well_formed img = true → flat img px →
  width out = width img → height out = height img →
  length (data out) = length (data img) →
  (∀ c, 0 ≤ c < 4 → flat_channel out c (px c)) →
  out = img.
Proof.
  intros (Hw & Hh & Hlen & _)%well_formed_spec Hpx Hwo Hho Hlo Hout.
  destruct out as [w h d], img as [w' h' d']. unfold flat_channel, flat in *.
  simpl in *. subst w h. f_equal.
  apply (pixel_buffer_ext w' h'); [done|lia|done|].
  intros x y c Hx Hy Hc. rewrite (Hout c Hc x y), (Hpx x y c); done.
Qed.

Lemma gaussianBlur_data (img : ImageData) (size : Z) (sigma : number) (k : Kernel) :
  well_formed img = true →
  buildKernel size sigma = Normal k →
  gaussianBlur img size sigma =
    Normal {| width := width img; height := height img; data := blurred_data img k |}.
Proof.
  intros Hwf Hk. rewrite (gaussianBlur_unfold _ _ _ k Hk), ImageData_new_cases.
  by rewrite buffer_shape_data, (well_formed_shape _ Hwf) by apply length_blurred_data.
Qed.

(** If the two passes keep a window of samples equal to [v], the blur
    keeps a channel whose samples are all [v]. *)
Lemma blurred_data_flat_channel (img : ImageData) (k : Kernel) (c v : Z) :
  well_formed img = true → 0 ≤ c < 4 →
  flat_channel img c v →
  blur_flat_sample k v = v →
  flat_channel {| width := width img; height := height img; data := blurred_data img k |}
    c v.
Proof.
  intros Hwf Hc Hv Hkeep x y Hx Hy. cbn [width height data] in *.
  pose proof Hwf as (Hw & Hh & Hlen & Hb)%well_formed_spec.
  unfold blurred_data.
  rewrite (write_pixels_get (width img) (height img))
    by first [done | rewrite length_replicate; lia].
  f_equal. etrans; [|exact Hkeep].
  unfold blur_flat_sample, column_pass. cbv zeta. f_equal.
  apply convolve_ext. intros k1 Hk1. unfold f32_read.
  assert (0 ≤ clamp (y + k1) 0 (height img - 1) < height img) by (unfold clamp; lia).
  rewrite (write_pixels_get (width img) (height img))
    by first [done | rewrite length_replicate; lia].
  simpl. f_equal. unfold row_pass. apply convolve_ext. intros k2 Hk2.
  assert (0 ≤ clamp (x + k2) 0 (width img - 1) < width img) by (unfold clamp; lia).
  unfold u8_read. by rewrite Hv.
Qed.

Context `{L : !JSNumberLaws}.

(** If the sharpen keeps a neighborhood of samples equal to [v], it keeps
    a color channel whose samples are all [v]; the alpha channel is kept,
    uniform or not. *)
Lemma sharpened_flat_channel (img : ImageData) (amount : number) (c v : Z) :
  well_formed img = true → 0 ≤ c < 4 →
  flat_channel img c v →
  (c < 3 → sharpen_flat_sample amount v = v) →
  flat_channel
    {| width := width img; height := height img;
       data := write_pixels (width img) (height img)
                 (sharpen_sample (width img) (height img) (data img) amount)
                 (replicate (length (data img)) 0) |} c v.
Proof.
  intros Hwf Hc Hv Hkeep x y Hx Hy. cbn [width height data] in *.
  pose proof Hwf as (Hw & Hh & Hlen & Hb)%well_formed_spec.
  rewrite (write_pixels_get (width img) (height img))
    by first [done | rewrite length_replicate; lia].
  f_equal. unfold sharpen_sample.
  destruct (Z.eqb_spec c 3) as [->|Hc3].
  - unfold u8_read. rewrite Hv by done. simpl.
    apply ToUint8Clamp_of_Z. by apply (flat_channel_range img 3).
  - etrans; [|apply Hkeep; lia]. unfold sharpen_flat_sample, sharpened.
    assert (∀ u, 0 ≤ clamp u 0 (width img - 1) < width img) by (intros; unfold clamp; lia).
    assert (∀ u, 0 ≤ clamp u 0 (height img - 1) < height img) by (intros; unfold clamp; lia).
    unfold u8_read. by rewrite !Hv.
Qed.

(** What [sharpenImage] returns for a pixel buffer, when the sharpen of
    its amount keeps the neighborhoods of equal samples. *)
Lemma sharpenImage_flat_channels (img : ImageData) (amount : number) :
  well_formed img = true →
  (∀ v, 0 ≤ v ≤ 255 → sharpen_flat_sample amount v = v) →
  ∃ out : ImageData,
    sharpenImage img amount = Normal out ∧
    width out = width img ∧ height out = height img ∧
    (∀ c v, 0 ≤ c < 4 → flat_channel img c v → flat_channel out c v) ∧
    (∀ px, flat img px → out = img).
Proof.
  intros Hwf Hkeep. unfold sharpenImage. destruct (num_le amount (of_Z 0)).
  { exists img. by repeat split. }
  rewrite sharpen_new_Normal by done. eexists. split; [done|].
  cbn [width height]. do 2 (split; [done|]).
  assert (∀ c v, 0 ≤ c < 4 → flat_channel img c v →
    flat_channel
      {| width := width img; height := height img;
         data := write_pixels (width img) (height img)
                   (sharpen_sample (width img) (height img) (data img) amount)
                   (replicate (length (data img)) 0) |} c v) as Hflat.
  { intros c v Hc Hv. apply sharpened_flat_channel; [done..|].
    intros _. apply Hkeep. by apply (flat_channel_range img c). }
  split; [done|]. intros px Hpx.
  apply (flat_unique img _ px); [done..| |].
  - cbn [data]. by rewrite length_write_pixels, length_replicate.
  - intros c Hc. apply Hflat; [done|]. by apply flat_flat_channel.
Qed.

End Flat.

(** *** Over binary64 numbers *)

Lemma odd_sizes_spec (size : Z) :
  1 ≤ size ≤ 99 → Z.odd size = true → size ∈ odd_sizes.
Proof.
  intros Hsize Hodd. unfold odd_sizes. apply list_elem_of_fmap.
  exists (size / 2). split; [|apply elem_of_seqZ].
  - rewrite (Z.div_mod size 2) at 1 by lia.
    rewrite <- Z.bit0_mod, Z.bit0_odd, Hodd. simpl. lia.
  - split; [apply Z.div_pos; lia|]. apply Z.div_lt_upper_bound; lia.
Qed.

Lemma flat_samples_spec (v : Z) :
  0 ≤ v ≤ 255 → (v, F64.of_Z v) ∈ flat_samples.
Proof.
  intros Hv. unfold flat_samples. apply list_elem_of_fmap.
  exists v. split; [done|]. apply elem_of_seqZ. lia.
Qed.

(** A window of equal samples over a kernel of [2 radius + 1] weights:
    the loop over the offsets is a loop over the weights. *)
Lemma F64_convolve_flat (approx : float → float) (ker : list float) (r : Z) (c : float) :
  Z.of_nat (length ker) = 2 * r + 1 →
  convolve (N:=Float64 approx) ker r (λ _, c) = F64_window_sum ker c.
Proof.
  intros Hlen. unfold convolve, for_loop, F64_window_sum.
  replace (r + 1 - - r) with (Z.of_nat (length ker)) by lia.
  change (@of_Z (Float64 approx) 0) with 0%float.
  generalize 0%float as a.
  assert (∀ (pre l : list float) (a : float),
    ker = pre ++ l →
    foldl (λ acc k, @num_add (Float64 approx) acc
                      (@num_mul (Float64 approx) c (f32_read (N:=Float64 approx) ker (k + r))))
      a (seqZ (Z.of_nat (length pre) - r) (Z.of_nat (length l)))
    = foldl (λ acc w, acc + c * w)%float a l) as Hgen.
  { intros pre l. revert pre. induction l as [|w l IH]; intros pre a Hker; [done|].
    rewrite length_cons, Nat2Z.inj_succ, seqZ_cons by lia. simpl.
    replace (Z.pred (Z.succ (Z.of_nat (length l)))) with (Z.of_nat (length l)) by lia.
    replace (Z.succ (Z.of_nat (length pre) - r))
      with (Z.of_nat (length (pre ++ [w])) - r) by (rewrite length_app; simpl; lia).
    rewrite (IH (pre ++ [w])) by (by rewrite <- app_assoc).
    f_equal. f_equal. f_equal. unfold f32_read, array_get.
    rewrite (proj2 (Z.ltb_ge _ 0)) by lia.
    replace (Z.to_nat (Z.of_nat (length pre) - r + r)) with (length pre) by lia.
    rewrite Hker, list_lookup_middle by done. done. }
  intros a. specialize (Hgen [] ker a eq_refl). simpl in Hgen.
  rewrite Z.sub_0_l in Hgen. exact Hgen.
Qed.

(** X11: On binary64 numbers, with the exponential of [F64.exp_fdlibm] and the
    sigma of [formatKernel]: the blur of every odd size from 1 to 99
    keeps every uniform channel of a pixel buffer, whatever its
    dimensions and the value of the channel (an opaque image stays
    opaque); a uniform image comes out with all its samples. *)
Theorem gaussianBlur_keeps_flat_channels (img : ImageData) (size : Z) :
  well_formed img = true →
  1 ≤ size ≤ 99 →
  Z.odd size = true →
  ∃ out : ImageData,
    gaussianBlur (N:=JS) img size (formatKernel (N:=JS) size) = Normal out ∧
    width out = width img ∧ height out = height img ∧
    (∀ c v, 0 ≤ c < 4 → flat_channel img c v → flat_channel out c v) ∧
    (∀ px, flat img px → out = img).
Proof.
  intros Hwf Hsize Hodd.
  assert (forallb blur_keeps_flat odd_sizes = true) as Hall by (vm_compute; reflexivity).
  rewrite forallb_forall in Hall.
  specialize (Hall size (proj1 (list_elem_of_In _ _) (odd_sizes_spec size Hsize Hodd))).
  unfold blur_keeps_flat in Hall.
  destruct (buildKernel (N:=JS) size (formatKernel (N:=JS) size)) as [k|] eqn:Hk; [|done].
  apply andb_true_iff in Hall as [Hlen%Z.eqb_eq Hall].
  rewrite forallb_forall in Hall.
  assert (∀ v, 0 ≤ v ≤ 255 → blur_flat_sample (N:=JS) k v = v) as Hkeep.
  { intros v Hv.
    specialize (Hall _ (proj1 (list_elem_of_In _ _) (flat_samples_spec v Hv))).
    apply Z.eqb_eq in Hall. rewrite <- Hall at 2.
    unfold blur_flat_sample, F64_blur_flat. cbv zeta.
    by rewrite !(F64_convolve_flat F64.exp_fdlibm). }
  rewrite (gaussianBlur_data (N:=JS) img size _ k Hwf Hk).
  eexists. split; [done|]. cbn [width height]. do 2 (split; [done|]).
  assert (∀ c v, 0 ≤ c < 4 → flat_channel img c v →
    flat_channel {| width := width img; height := height img;
                    data := blurred_data (N:=JS) img k |} c v) as Hflat.
  { intros c v Hc Hv. apply (blurred_data_flat_channel (N:=JS)); [done..|].
    apply Hkeep. by apply (flat_channel_range img c). }
  split; [done|]. intros px Hpx.
  apply (flat_unique img _ px); [done..| |].
  - cbn [data]. apply length_blurred_data.
  - intros c Hc. apply Hflat; [done|]. by apply flat_flat_channel.
Qed.

(** What is stored for a Number that [Math.round] takes to an integer [v]
    from 0 to 255, after the clamp, is [v]. *)
Lemma F64_round_store (r : float) (v : Z) :
  0 ≤ v ≤ 255 →
  rounds_to r v = true →
  F64.to_uint8_clamp (F64.max 0 (F64.min 255 (F64.round r))) = v.
Proof.
  intros Hv. unfold rounds_to, F64.round.
  assert (forallb store_keeps (seqZ 0 256) = true) as Htable by (vm_compute; reflexivity).
  rewrite forallb_forall in Htable.
  assert (v ∈ seqZ 0 256) as Hin by (apply elem_of_seqZ; lia).
  specialize (Htable v (proj1 (list_elem_of_In _ _) Hin)). apply Z.eqb_eq in Htable.
  destruct (Prim2SF r) as [s | s | | s m e] eqn:Hsf; [|discriminate..|].
  - intros Hz%Z.eqb_eq. subst v.
    apply F64_zero_cases in Hsf. rewrite Hsf. by destruct s.
  - intros Hn%Z.eqb_eq. rewrite Hn.
    destruct (Z.eqb_spec v 0) as [->|H0]; [by destruct s|exact Htable].
Qed.

(** X13: On binary64 numbers, for the amounts [k / 10] up to 10: the sharpen
    keeps every uniform channel of a pixel buffer, whatever its
    dimensions and the value of the channel; a uniform image comes out
    with all its samples. *)
Theorem sharpenImage_keeps_flat_channels (img : ImageData) (k : Z) :
  well_formed img = true →
  0 ≤ k ≤ 100 →
  ∃ out : ImageData,
    sharpenImage (N:=JS) img (tenths k) = Normal out ∧
    width out = width img ∧ height out = height img ∧
    (∀ c v, 0 ≤ c < 4 → flat_channel img c v → flat_channel out c v) ∧
    (∀ px, flat img px → out = img).
Proof.
  intros Hwf Hk.
  assert (forallb sharpen_keeps_flat (seqZ 0 101) = true) as Hall
    by (vm_compute; reflexivity).
  rewrite forallb_forall in Hall.
  assert (k ∈ seqZ 0 101) as Hin by (apply elem_of_seqZ; lia).
  specialize (Hall k (proj1 (list_elem_of_In _ _) Hin)).
  unfold sharpen_keeps_flat in Hall. cbv zeta in Hall. rewrite forallb_forall in Hall.
  apply (sharpenImage_flat_channels (N:=JS) (L:=Float64_laws F64.exp_fdlibm)); [done|].
  intros v Hv.
  specialize (Hall _ (proj1 (list_elem_of_In _ _) (flat_samples_spec v Hv))).
  cbv beta iota in Hall. by apply F64_round_store.
Qed.

(** *** Over exact numbers *)


(** ** The blur over exact numbers: no sample leaves the range of the input *)





(** ** The blur over exact numbers: the two passes are one convolution in
    two dimensions *)






(** ** The shape of the kernel over exact numbers *)







(** ** [formatKernel] over exact numbers *)


(** ** The size of a loaded image *)


(** *** Over binary64 numbers *)

Lemma F64_max_cases (a b : float) :
  is_nan a = false → is_nan b = false → F64.max a b = a ∨ F64.max a b = b.
Proof.
  intros Ha Hb. unfold F64.max. rewrite Ha, Hb. simpl.
  destruct (a <? b)%float; [by right|]. destruct (b <? a)%float; [by left|].
  destruct (is_zero a && get_sign a); [by right|by left].
Qed.

(** X21: On binary64 numbers, an image whose dimensions are both from 1 to
    [MAX_DIMENSION] is not scaled: [scale] is 1 and [applyImage] computes
    the dimensions of the image. *)
Theorem applyImage_unscaled (approx : float → float) (img : Image) :
  let nw := or_else (naturalWidth img) (Image_width img) in
  let nh := or_else (naturalHeight img) (Image_height img) in
  1 ≤ nw ≤ MAX_DIMENSION → 1 ≤ nh ≤ MAX_DIMENSION →
  applyImage_scale (N:=Float64 approx) img = 1%float ∧
  applyImage_width (N:=Float64 approx) img = F64.of_Z nw ∧
  applyImage_height (N:=Float64 approx) img = F64.of_Z nh.
Proof.
  intros nw nh Hnw Hnh. unfold MAX_DIMENSION in *.
  assert (forallb F64_unscaled (seqZ 1 1400) = true) as Hall by (vm_compute; reflexivity).
  rewrite forallb_forall in Hall.
  assert (∀ n, 1 ≤ n ≤ 1400 →
    is_nan (F64.of_Z n) = false ∧
    F64.min 1 (1400 / F64.of_Z n)%float = 1%float ∧
    F64.round (F64.of_Z n * 1)%float = F64.of_Z n) as Htable.
  { intros n Hn. assert (n ∈ seqZ 1 1400) as Hin by (apply elem_of_seqZ; lia).
    specialize (Hall n (proj1 (list_elem_of_In _ _) Hin)). unfold F64_unscaled in Hall.
    cbv zeta in Hall.
    apply andb_true_iff in Hall as [[H1%negb_true_iff H2%Leibniz.eqb_spec]%andb_true_iff H3].
    do 2 (split; [done|]). revert H3. unfold rounds_to, F64.round.
    destruct (Prim2SF _) as [s | s | | s m e]; try done; [intros ?%Z.eqb_eq; lia|].
    intros ->%Z.eqb_eq. by rewrite (proj2 (Z.eqb_neq n 0)) by lia. }
  destruct (Htable nw Hnw) as (Hw1 & Hw2 & Hw3).
  destruct (Htable nh Hnh) as (Hh1 & Hh2 & Hh3).
  assert (applyImage_scale (N:=Float64 approx) img = 1%float) as Hscale.
  { unfold applyImage_scale, MAX_DIMENSION. fold nw nh. simpl.
    change (F64.of_Z 1) with 1%float. change (F64.of_Z 1400) with 1400%float.
    destruct (F64_max_cases (F64.of_Z nw) (F64.of_Z nh) Hw1 Hh1) as [-> | ->]; done. }
  split; [done|]. unfold applyImage_width, applyImage_height. fold nw nh.
  rewrite Hscale. done.
Qed.

(** ** The further theorems at concrete inputs *)


Lemma impulse3_gray3_alpha : same_channel 3 impulse3 gray3.
Proof.
  intros x y Hx Hy. simpl in *.
  assert (x = 0 ∨ x = 1 ∨ x = 2) as Hx' by lia.
  assert (y = 0 ∨ y = 1 ∨ y = 2) as Hy' by lia.
  destruct Hx' as [->|[->| ->]], Hy' as [->|[->| ->]]; reflexivity.
Qed.

Lemma buildKernel_symmetric_witness :
  0 ≤ 5 ∧
  ∃ k : @Kernel JS,
    buildKernel (N:=JS) 5 1%float = Normal k ∧
    array_get (kernel k) 3 = array_get (kernel k) 1.
Proof.
  split; [lia|].
  destruct (buildKernel_symmetric (N:=JS) 5 1%float) as (k & Hk & Hr & _ & Hsym); [lia|].
  exists k. split; [exact Hk|].
  specialize (Hsym 1). rewrite Hr in Hsym. change (5 `div` 2) with 2 in Hsym.
  apply Hsym; lia.
Defined.





Lemma stages_keep_channels_apart_witness :
  well_formed impulse3 = true ∧ well_formed gray3 = true ∧ 0 ≤ 3 < 4 ∧
  ∀ out1 out2,
    sharpenImage (N:=JS) impulse3 1.5%float = Normal out1 →
    sharpenImage (N:=JS) gray3 1.5%float = Normal out2 →
    same_channel 3 out1 out2.
Proof.
  split; [reflexivity|]. split; [reflexivity|]. split; [lia|].
  destruct (stages_keep_channels_apart (N:=JS) impulse3 gray3 3) as [_ Hsharpen];
    [reflexivity|reflexivity|reflexivity|reflexivity|lia|exact impulse3_gray3_alpha|].
  exact (Hsharpen 1.5%float).
Defined.

Lemma gaussianBlur_even_size_black_witness :
  well_formed impulse3 = true ∧ 0 ≤ 4 ∧ Z.even 4 = true ∧
  gaussianBlur (N:=JS) impulse3 4 1%float =
    Normal {| width := 3; height := 3; data := replicate 36 0 |}.
Proof.
  split; [reflexivity|]. split; [lia|]. split; [reflexivity|].
  apply (gaussianBlur_even_size_black F64.exp_fdlibm impulse3 4 1%float);
    [reflexivity|lia|reflexivity].
Defined.

Lemma gaussianBlur_degenerate_sigma_witness :
  well_formed impulse3 = true ∧ 0 ≤ 3 ∧
  is_nan (2 * (0 * 0))%float || is_zero (2 * (0 * 0))%float = true ∧
  gaussianBlur (N:=JS) impulse3 3 0%float =
    Normal {| width := 3; height := 3; data := replicate 36 0 |}.
Proof.
  split; [reflexivity|]. split; [lia|]. split; [reflexivity|].
  apply (gaussianBlur_degenerate_sigma F64.exp_fdlibm impulse3 3 0%float);
    [reflexivity|lia|reflexivity].
Defined.

Lemma sharpenImage_nan_amount_witness :
  well_formed impulse3 = true ∧
  ∃ out : ImageData,
    sharpenImage (N:=JS) impulse3 nan = Normal out ∧
    array_get (data out) (sample_index 3 1 1 0) = Some 0.
Proof.
  split; [reflexivity|].
  destruct (sharpenImage_nan_amount F64.exp_fdlibm impulse3)
    as (out & Hout & _ & _ & Hpx); [reflexivity|].
  exists out. split; [exact Hout|].
  destruct (Hpx 1 1) as [Hcolor _]; [simpl; lia..|]. apply Hcolor. lia.
Defined.

Lemma gaussianBlur_keeps_flat_channels_witness :
  well_formed gray3 = true ∧ 1 ≤ 5 ≤ 99 ∧ Z.odd 5 = true ∧
  ∃ out : ImageData,
    gaussianBlur (N:=JS) gray3 5 (formatKernel (N:=JS) 5) = Normal out ∧
    width out = width gray3 ∧ height out = height gray3 ∧
    (∀ c v, 0 ≤ c < 4 → flat_channel gray3 c v → flat_channel out c v) ∧
    (∀ px, flat gray3 px → out = gray3).
Proof.
  split; [reflexivity|]. split; [lia|]. split; [reflexivity|].
  apply (gaussianBlur_keeps_flat_channels gray3 5); [reflexivity|lia|reflexivity].
Defined.



Lemma sharpenImage_keeps_flat_channels_witness :
  well_formed gray3 = true ∧ 0 ≤ 15 ≤ 100 ∧
  ∃ out : ImageData,
    sharpenImage (N:=JS) gray3 (tenths 15) = Normal out ∧
    width out = width gray3 ∧ height out = height gray3 ∧
    (∀ c v, 0 ≤ c < 4 → flat_channel gray3 c v → flat_channel out c v) ∧
    (∀ px, flat gray3 px → out = gray3).
Proof.
  split; [reflexivity|]. split; [lia|].
  apply (sharpenImage_keeps_flat_channels gray3 15); [reflexivity|lia].
Defined.


Lemma events_keep_one_run_witness :
  idle_or_pending (page_loaded impulse3) ∧
  (length (animationFrames
     (dispatch_all (N:=JS)
        session_sliders
        (page_loaded impulse3))) ≤ 1)%nat.
Proof.
  split; [reflexivity|].
  destruct (events_keep_one_run (N:=JS) (L:=Float64_laws F64.exp_fdlibm)
              session_sliders
              (page_loaded impulse3)) as (_ & Hlen & _); [reflexivity|].
  exact Hlen.
Defined.

Lemma requests_dropped_while_processing_witness :
  isProcessing (page_pending impulse3) = true ∧
  same_but_sliders (page_pending impulse3)
    (dispatch_all (N:=JS) session_no_frame (page_pending impulse3)).
Proof.
  split; [reflexivity|].
  destruct (requests_dropped_while_processing (N:=JS)
              session_no_frame (page_pending impulse3)) as [Hsame _];
    [reflexivity|reflexivity|].
  exact Hsame.
Defined.

Lemma refilter_from_original_witness :
  idle_or_pending (page_loaded impulse3) ∧
  isProcessing (dispatch_all (N:=JS) session_blur_5
                  (page_loaded impulse3)) = false ∧
  ∃ out : ImageData,
    FilterPipeline_apply (N:=JS) impulse3 7 0.5%float = Normal out ∧
    outputCanvas
      (animation_frame
         (dispatch (N:=JS) (KernelSizeInput 7)
            (dispatch_all (N:=JS) session_blur_5
               (page_loaded impulse3)))) = Some out.
Proof.
  split; [reflexivity|]. split; [vm_compute; reflexivity|].
  destruct (refilter_from_original (N:=JS) (L:=Float64_laws F64.exp_fdlibm)
              (page_loaded impulse3) 1%positive impulse3
              session_blur_5 (KernelSizeInput 7))
    as (out & l & Hout & _ & _ & Hcanvas & _ & _ & Hsize & Hsharpen);
    [reflexivity|reflexivity|reflexivity|reflexivity|vm_compute; reflexivity|reflexivity|].
  exists out. split; [|exact Hcanvas].
  rewrite Hsize, Hsharpen in Hout.
  assert (sharpenAmount_value (dispatch_all (N:=JS) session_blur_5
            (page_loaded impulse3)) = 0.5%float) as Hv by (vm_compute; reflexivity).
  rewrite Hv in Hout. exact Hout.
Defined.

Lemma no_image_no_run_witness :
  originalImageData page_empty = None ∧
  same_but_sliders page_empty
    (dispatch_all (N:=JS) session_sliders page_empty).
Proof.
  split; [reflexivity|].
  apply (no_image_no_run (N:=JS) session_sliders page_empty);
    reflexivity.
Defined.

Lemma resetBtn_click_shows_original_witness :
  originalImageData (page_loaded one_pixel) = Some 1%positive ∧
  objects (page_loaded one_pixel) !! 1%positive = Some one_pixel ∧
  outputCanvas (resetBtn_click (N:=JS) (page_loaded one_pixel)) = Some one_pixel.
Proof.
  split; [reflexivity|]. split; [reflexivity|].
  destruct (resetBtn_click_shows_original F64.exp_fdlibm (page_loaded one_pixel)
              1%positive one_pixel) as (_ & _ & Hidle); [reflexivity|reflexivity|].
  change (isProcessing (page_loaded one_pixel)) with false in Hidle.
  destruct Hidle as (_ & Hcanvas & _). exact Hcanvas.
Defined.


Lemma applyImage_unscaled_witness :
  1 ≤ or_else (naturalWidth icon) (Image_width icon) ≤ MAX_DIMENSION ∧
  1 ≤ or_else (naturalHeight icon) (Image_height icon) ≤ MAX_DIMENSION ∧
  applyImage_width (N:=JS) icon = F64.of_Z 64 ∧
  applyImage_height (N:=JS) icon = F64.of_Z 48.
Proof.
  split; [vm_compute; split; discriminate|]. split; [vm_compute; split; discriminate|].
  destruct (applyImage_unscaled F64.exp_fdlibm icon) as (_ & Hw & Hh);
    [vm_compute; split; discriminate..|].
  split; [exact Hw|exact Hh].
Defined.

(** The sharpen does not keep a uniform image for every amount: with
    [amount = 1e20] the two products are the same Number, their
    difference is 0, and the gray image comes out black. *)
Example sharpenImage_huge_amount :
  sharpenImage (N:=JS) gray3 0x1.5af1d78b58c4p+66%float =
  Normal {| width := 3; height := 3;
            data := concat (replicate 9 [0; 0; 0; 255]) |}.
Proof. vm_compute. reflexivity. Qed.
